(** * Questify backend: document routes, chunk-and-summarize pipeline

    A shallow embedding of [routes/fileUploadRoutes.js] (the
    ownership-enforcing version that uses the [Summary] and [QAHistory]
    collections), of the Mongoose schemas it relies on and of the pieces of
    [index.js] that decide how a request reaches a handler.

    Conventions.
    - A JavaScript string is a [string]; one character stands for one UTF-16
      code unit, so [String.length] is the [.length] property.
    - A Mongo [ObjectId] is a number; [toString()] on it is injective, so the
      test [document.userId.toString() !== req.user.id] is disequality of ids.
      Route parameters and body fields that name a document are taken to be
      well-formed ids.
    - The database, the file system and the hosted language model are
      explicit: the first two are fields of [World], the third is an oracle
      whose answer may depend on everything that happened before.  Database
      and disk operations themselves do not fail, apart from schema
      validation and a missing file.
    - The router is mounted behind [authenticate]; a handler is entered with
      the id of the user that middleware resolved, here [user]. *)

From Stdlib Require Import ZArith String Ascii List Sorting.Sorted QArith.
From stdpp Require Import base option list gmap strings sorting pretty.

Local Open Scope string_scope.
Local Open Scope list_scope.

(** ** JavaScript strings and arrays *)

Module JS.

(** [s.length] *)
Definition length (s : string) : Z := Z.of_nat (String.length s).

(** [s.substring(start, stop)]: both indices are clamped to
    [0 .. s.length] and swapped when out of order. *)
Definition substring (s : string) (start stop : Z) : string :=
  let len := length s in
  let a := Z.max 0 (Z.min start len) in
  let b := Z.max 0 (Z.min stop len) in
  String.substring (Z.to_nat (Z.min a b)) (Z.to_nat (Z.max a b - Z.min a b)) s.

(** [s.split(" ")]: cut at every occurrence of the separator character.
    The result always has at least one piece; two adjacent separators
    give an empty piece. *)
Fixpoint split (sep : ascii) (s : string) : list string :=
  match s with
  | EmptyString => [EmptyString]
  | String c rest =>
      if Ascii.eqb c sep then EmptyString :: split sep rest
      else match split sep rest with
           | [] => [String c EmptyString]
           | piece :: pieces => String c piece :: pieces
           end
  end.

(** [a.join(sep)] *)
Definition join (sep : string) (a : list string) : string := String.concat sep a.

(** [a.slice(start, stop)] for indices that are natural numbers. *)
Definition slice {A} (a : list A) (start stop : nat) : list A :=
  take (stop - start) (drop start a).

(** [x || dflt] on a possibly missing string: [undefined], [null] and the
    empty string are falsy. *)
Definition or_else (x : option string) (dflt : string) : string :=
  match x with
  | Some EmptyString | None => dflt
  | Some s => s
  end.

End JS.

(** ** Chunking *)

(** The loop of [splitTextIntoChunks], started at index [i] with [chunks]
    collected so far.  [fuel] bounds the number of iterations; [None] means
    the bound was hit with the loop condition still true. *)
Fixpoint chunk_loop (fuel : nat) (words : list string) (chunkSize i : nat)
    (chunks : list string) : option (list string) :=
  if (i <? length words)%nat then
    match fuel with
    | O => None
    | S fuel' =>
        chunk_loop fuel' words chunkSize (i + chunkSize)
          (chunks ++ [JS.join " " (JS.slice words i (i + chunkSize))])
    end
  else Some chunks.

(** [splitTextIntoChunks(text, chunkSize)].  Every iteration with
    [chunkSize >= 1] advances [i], so [length words] iterations are enough;
    with [chunkSize = 0] the JavaScript loop never ends and the result here
    is [None]. *)
Definition splitTextIntoChunks (text : string) (chunkSize : nat) : option (list string) :=
  let words := JS.split " " text in
  chunk_loop (length words) words chunkSize 0 [].

(** ** Stored data (the Mongoose schemas) *)

Definition ObjectId := N.

(** A [Date], in milliseconds since the epoch. *)
Definition Date := Z.

(** The [required] validator of a [String] path: a missing value and the
    empty string both fail it.  Fields are always present here, so only
    emptiness is left to test. *)
Definition required (value : string) : bool :=
  negb (String.eqb value "").

Module Document.
(** [documentSchema]; the [_id] is the key under which the row is stored. *)
Record t := {
  filename : string;
  filepath : string;
  text : string;
  userId : ObjectId;
  uploadDate : Date;
  fileSize : option Z;
  mimeType : option string
}.

Definition validate (d : t) : bool :=
  required (filename d) && required (filepath d) && required (text d).

(** The order of [.sort({ uploadDate: -1 })] on stored rows. *)
Definition latest_first (a b : ObjectId * t) : Prop :=
  (uploadDate b.2 <= uploadDate a.2)%Z.

#[global] Instance latest_first_dec a b : Decision (latest_first a b).
Proof. unfold latest_first. apply _. Defined.
End Document.

Module Summary.
(** [summarySchema] *)
Record t := {
  documentId : ObjectId;
  userId : ObjectId;
  content : string;
  createdAt : Date;
  updatedAt : Date
}.

Definition validate (s : t) : bool := required (content s).

(** The filter [{ documentId, userId }]. *)
Definition matches (doc user : ObjectId) (s : t) : bool :=
  N.eqb (documentId s) doc && N.eqb (userId s) user.
End Summary.

Module QAHistory.
(** [qaHistorySchema] *)
Record t := {
  documentId : ObjectId;
  userId : ObjectId;
  question : string;
  answer : string;
  createdAt : Date
}.

Definition validate (q : t) : bool :=
  required (question q) && required (answer q).

Definition matches (doc user : ObjectId) (q : t) : bool :=
  N.eqb (documentId q) doc && N.eqb (userId q) user.

(** The order of [.sort({ createdAt: -1 })]: [a] may come before [b]. *)
Definition newer_first (a b : t) : Prop := (createdAt b <= createdAt a)%Z.

#[global] Instance newer_first_dec a b : Decision (newer_first a b).
Proof. unfold newer_first. apply _. Defined.
End QAHistory.

(** ** The language-model client *)

Record Message := { role : string; content : string }.

(** The argument of [groq.chat.completions.create]. *)
Record ChatRequest := {
  messages : list Message;
  model : string;
  temperature : Q;
  max_tokens : Z
}.

(** What the call produces: it rejects with an error message, or resolves
    to a completion.  Of a completion only [choices[i]?.message?.content]
    is read, so a choice is kept as that optional string. *)
Inductive GroqResult :=
| GroqError (message : string)
| GroqCompletion (choices : list (option string)).

(** ** The world a request runs in *)

(** Effects that leave the process, in the order they happen. *)
Inductive Event :=
| EGroq (request : ChatRequest)
| EWriteFile (path : string)
| EDocumentSave (id : ObjectId)
| EScheduleCleanup (path : string)
| ESummarySave (row : Summary.t)
| EQAHistorySave (row : QAHistory.t)
| ESummaryDeleteMany (documentId userId : ObjectId)
| EQAHistoryDeleteMany (documentId userId : ObjectId)
| EUnlink (path : string)
| EDocumentDelete (id : ObjectId).

Record World := {
  documents : gmap ObjectId Document.t;   (* the Document collection *)
  summaries : list Summary.t;             (* the Summary collection, oldest first *)
  qaHistory : list QAHistory.t;           (* the QAHistory collection, oldest first *)
  files : gmap string string;             (* the disk: path to contents *)
  clock : Date;                           (* [Date.now()] *)
  trace : list Event
}.

Definition emit (e : Event) (w : World) : World :=
  {| documents := documents w; summaries := summaries w; qaHistory := qaHistory w;
     files := files w; clock := clock w; trace := trace w ++ [e] |}.

(** ** Computations: state, exceptions, non-termination *)

Inductive Outcome (A : Type) :=
| Ok (value : A)
| Throw (message : string)
| Diverge.
Arguments Ok {A} value.
Arguments Throw {A} message.
Arguments Diverge {A}.

Definition M (A : Type) : Type := World -> Outcome A * World.

Definition ret {A} (a : A) : M A := fun w => (Ok a, w).

Definition bind {A B} (m : M A) (k : A -> M B) : M B :=
  fun w =>
    match m w with
    | (Ok a, w') => k a w'
    | (Throw e, w') => (Throw e, w')
    | (Diverge, w') => (Diverge, w')
    end.

Definition throw {A} (message : string) : M A := fun w => (Throw message, w).

(** [try { body } catch (error) { handler }]: the handler starts from the
    world as the failing statement left it. *)
Definition try_catch {A} (body : M A) (handler : string -> M A) : M A :=
  fun w =>
    match body w with
    | (Throw e, w') => handler e w'
    | r => r
    end.

(** A loop that may not end: [None] is the loop that never leaves. *)
Definition terminates {A} (r : option A) : M A :=
  fun w => match r with Some a => (Ok a, w) | None => (Diverge, w) end.

Declare Scope js_scope.
Delimit Scope js_scope with js.
Notation "x <- m ;; k" := (bind m (fun x => k))
  (at level 100, m at next level, right associativity) : js_scope.
Notation "m ;;; k" := (bind m (fun _ => k))
  (at level 100, right associativity) : js_scope.

(** [for (const x of xs) { acc = body(x, acc) }] *)
Fixpoint for_of {A S} (xs : list A) (body : A -> S -> M S) (acc : S) : M S :=
  match xs with
  | [] => ret acc
  | x :: xs' => bind (body x acc) (for_of xs' body)
  end.

(** ** Collections, disk and clock as computations *)

Definition log (e : Event) : M unit := fun w => (Ok tt, emit e w).

(** [Date.now()] *)
Definition Date_now : M Date := fun w => (Ok (clock w), w).

(** [Document.findById(id)] *)
Definition Document_findById (id : ObjectId) : M (option Document.t) :=
  fun w => (Ok (documents w !! id), w).

(** [document.save()] of a new document: validation, then an insert under
    an id no stored document has. *)
Definition Document_save (d : Document.t) : M ObjectId :=
  fun w =>
    if Document.validate d then
      let id := fresh (dom (documents w)) in
      (Ok id,
       emit (EDocumentSave id)
         {| documents := <[id := d]> (documents w); summaries := summaries w;
            qaHistory := qaHistory w; files := files w; clock := clock w;
            trace := trace w |})
    else (Throw "Document validation failed", w).

(** [Document.find({ userId }).sort({ uploadDate: -1 })] *)
Definition Document_find_sorted (userId : ObjectId) : M (list (ObjectId * Document.t)) :=
  fun w =>
    (Ok (merge_sort Document.latest_first
           (List.filter (λ row, N.eqb (Document.userId row.2) userId)
              (map_to_list (documents w)))), w).

(** [Document.findByIdAndDelete(id)] *)
Definition Document_findByIdAndDelete (id : ObjectId) : M (option Document.t) :=
  fun w =>
    (Ok (documents w !! id),
     emit (EDocumentDelete id)
       {| documents := delete id (documents w); summaries := summaries w;
          qaHistory := qaHistory w; files := files w; clock := clock w;
          trace := trace w |}).

(** [Summary.findOne({ documentId, userId })] *)
Definition Summary_findOne (documentId userId : ObjectId) : M (option Summary.t) :=
  fun w => (Ok (List.find (Summary.matches documentId userId) (summaries w)), w).

(** [new Summary({ documentId, userId, content })]: both dates default to
    [Date.now]. *)
Definition Summary_new (documentId userId : ObjectId) (content : string) : M Summary.t :=
  fun w =>
    (Ok {| Summary.documentId := documentId; Summary.userId := userId;
           Summary.content := content;
           Summary.createdAt := clock w; Summary.updatedAt := clock w |}, w).

(** [newSummary.save()] *)
Definition Summary_save (s : Summary.t) : M unit :=
  fun w =>
    if Summary.validate s then
      (Ok tt,
       emit (ESummarySave s)
         {| documents := documents w; summaries := summaries w ++ [s];
            qaHistory := qaHistory w; files := files w; clock := clock w;
            trace := trace w |})
    else (Throw "Summary validation failed", w).

(** [Summary.deleteMany({ documentId, userId })] *)
Definition Summary_deleteMany (documentId userId : ObjectId) : M unit :=
  fun w =>
    (Ok tt,
     emit (ESummaryDeleteMany documentId userId)
       {| documents := documents w;
          summaries :=
            List.filter (fun s => negb (Summary.matches documentId userId s)) (summaries w);
          qaHistory := qaHistory w; files := files w; clock := clock w;
          trace := trace w |}).

(** [new QAHistory({ documentId, userId, question, answer })] *)
Definition QAHistory_new (documentId userId : ObjectId) (question answer : string)
  : M QAHistory.t :=
  fun w =>
    (Ok {| QAHistory.documentId := documentId; QAHistory.userId := userId;
           QAHistory.question := question; QAHistory.answer := answer;
           QAHistory.createdAt := clock w |}, w).

(** [qaEntry.save()] *)
Definition QAHistory_save (q : QAHistory.t) : M unit :=
  fun w =>
    if QAHistory.validate q then
      (Ok tt,
       emit (EQAHistorySave q)
         {| documents := documents w; summaries := summaries w;
            qaHistory := qaHistory w ++ [q]; files := files w; clock := clock w;
            trace := trace w |})
    else (Throw "QAHistory validation failed", w).

(** [QAHistory.find({ documentId, userId }).sort({ createdAt: -1 })] *)
Definition QAHistory_find_sorted (documentId userId : ObjectId) : M (list QAHistory.t) :=
  fun w =>
    (Ok (merge_sort QAHistory.newer_first
           (List.filter (QAHistory.matches documentId userId) (qaHistory w))), w).

(** [QAHistory.deleteMany({ documentId, userId })] *)
Definition QAHistory_deleteMany (documentId userId : ObjectId) : M unit :=
  fun w =>
    (Ok tt,
     emit (EQAHistoryDeleteMany documentId userId)
       {| documents := documents w; summaries := summaries w;
          qaHistory :=
            List.filter (fun q => negb (QAHistory.matches documentId userId q)) (qaHistory w);
          files := files w; clock := clock w; trace := trace w |}).

(** [fs.existsSync(path)] *)
Definition fs_existsSync (path : string) : M bool :=
  fun w => (Ok (bool_decide (is_Some (files w !! path))), w).

(** [fs.readFileSync(path)] *)
Definition fs_readFileSync (path : string) : M string :=
  fun w =>
    match files w !! path with
    | Some data => (Ok data, w)
    | None => (Throw "ENOENT: no such file or directory", w)
    end.

(** [fs.unlinkSync(path)] *)
Definition fs_unlinkSync (path : string) : M unit :=
  fun w =>
    match files w !! path with
    | Some _ =>
        (Ok tt,
         emit (EUnlink path)
           {| documents := documents w; summaries := summaries w;
              qaHistory := qaHistory w; files := delete path (files w);
              clock := clock w; trace := trace w |})
    | None => (Throw "ENOENT: no such file or directory", w)
    end.

(** Writing an uploaded file to disk (multer's disk storage). *)
Definition fs_writeFile (path data : string) : M unit :=
  fun w =>
    (Ok tt,
     emit (EWriteFile path)
       {| documents := documents w; summaries := summaries w;
          qaHistory := qaHistory w; files := <[path := data]> (files w);
          clock := clock w; trace := trace w |}).

(** [cleanupFile(filePath)]: arms a one-shot timer for 24 hours later; the
    timer firing is not part of the request. *)
Definition cleanupFile (filePath : string) : M unit := log (EScheduleCleanup filePath).

(** ** HTTP responses *)

Inductive Body :=
| JMessage (message : string)
| JUploaded (message : string) (id : ObjectId) (document : Document.t)
| JDocuments (documents : list (ObjectId * Document.t))
| JDocument (id : ObjectId) (document : Document.t)
| JSummaryCreated (summary : string) (createdAt : Date)
| JSummary (summary : string)
| JAnswer (answer : string)
| JQAHistory (entries : list QAHistory.t)
| ErrorPage (error : string).

Record Response := { status : Z; body : Body }.

(** [res.status(code).json(body)] *)
Definition res (code : Z) (b : Body) : M Response :=
  ret {| status := code; body := b |}.

(** A line feed and a double quote, for the prompt templates. *)
Definition nl : string := String "010"%char EmptyString.
Definition dq : string := String "034"%char EmptyString.
Definition indent : string := "          ".

(** An uploaded part as multer sees it, and the file it leaves in
    [req.file]. *)
Record Upload := {
  originalname : string;
  mimetype : string;
  size : Z;
  data : string
}.

Record StoredFile := {
  file_originalname : string;
  file_mimetype : string;
  file_size : Z;
  file_path : string
}.

(** [fileFilter]: [None] is [cb(null, true)], [Some e] is [cb(new Error(e), false)]. *)
Definition fileFilter (file : Upload) : option string :=
  if String.eqb (mimetype file) "application/pdf" || String.eqb (mimetype file) "text/plain"
  then None
  else Some "Only PDF and text files are allowed".

Definition fileSizeLimit : Z := 10 * 1024 * 1024.

(** The document operations that take a document id. *)
Inductive Route :=
| GetDocument (id : ObjectId)
| DeleteDocument (id : ObjectId)
| GetSummary (documentId : ObjectId)
| PostSummarize (documentId : ObjectId)
| PostAsk (documentId : ObjectId) (question : string)
| GetQAHistory (documentId : ObjectId).

Section Routes.

Local Open Scope js_scope.

(** The hosted model: its answer to a request, given all that happened
    before the request was sent. *)
Variable groq : list Event -> ChatRequest -> GroqResult.

(** [pdf-parse]: the [text] it extracts from a buffer, or [None] when it
    rejects. *)
Variable pdf : string -> option string.

(** [path.join(__dirname, "../uploads")] *)
Variable uploadDir : string.

(** [groq.chat.completions.create(request)] *)
Definition groq_chat_completions_create (request : ChatRequest) : M (list (option string)) :=
  fun w =>
    match groq (trace w) request with
    | GroqError e => (Throw e, emit (EGroq request) w)
    | GroqCompletion choices => (Ok choices, emit (EGroq request) w)
    end.

(** [chatCompletion.choices[0]?.message?.content] *)
Definition first_choice_content (choices : list (option string)) : option string :=
  match choices with
  | [] => None
  | c :: _ => c
  end.

(** The request [summarizeText] builds around the text it sends. *)
Definition summarize_request (truncatedText : string) : ChatRequest :=
  {| messages :=
       [ {| role := "system";
            content := "You are a helpful assistant that creates concise, informative summaries. Provide a summary that captures the key points and main ideas of the given text." |};
         {| role := "user";
            content := "Please summarize the following text:" +:+ nl +:+ nl +:+ truncatedText |} ];
     model := "groq/compound-mini";
     temperature := 3 # 10;
     max_tokens := 500 |}.

Definition summarizeText (text : string) : M string :=
  try_catch
    (let maxLength := 8000%Z in
     let truncatedText :=
       if (JS.length text >? maxLength)%Z
       then JS.substring text 0 maxLength +:+ "..."
       else text in
     chatCompletion <- groq_chat_completions_create (summarize_request truncatedText) ;;
     let summary := JS.or_else (first_choice_content chatCompletion) "Summary not available" in
     ret summary)
    (fun error => throw ("Summarization failed: " +:+ error)).

Definition answer_system_prompt : string :=
  "You are a helpful assistant that answers questions based on the provided document content. " +:+ nl +:+
  indent +:+ nl +:+
  indent +:+ "Instructions:" +:+ nl +:+
  indent +:+ "- Carefully read through the entire context provided" +:+ nl +:+
  indent +:+ "- Answer questions based ONLY on the information in the document" +:+ nl +:+
  indent +:+ "- If you find relevant information, provide a clear and detailed answer" +:+ nl +:+
  indent +:+ "- If the specific information is not in the document, say " +:+ dq +:+
    "I cannot find this specific information in the provided document." +:+ dq +:+ nl +:+
  indent +:+ "- Be thorough in your search through the context before concluding information is missing" +:+ nl +:+
  indent +:+ "- Format your response clearly and professionally".

(** The request [answerQuestion] builds. *)
Definition answer_request (truncatedContext question : string) : ChatRequest :=
  {| messages :=
       [ {| role := "system"; content := answer_system_prompt |};
         {| role := "user";
            content :=
              "Document Content:" +:+ nl +:+ truncatedContext +:+ nl +:+ nl +:+
              "Question: " +:+ question +:+ nl +:+ nl +:+
              "Please provide a detailed answer based on the document content above." |} ];
     model := "groq/compound-mini";
     temperature := 2 # 10;
     max_tokens := 500 |}.

Definition answerQuestion (context question : string) : M string :=
  try_catch
    (let maxLength := 12000%Z in
     let truncatedContext :=
       if (JS.length context >? maxLength)%Z
       then JS.substring context 0 maxLength +:+ "..."
       else context in
     chatCompletion <- groq_chat_completions_create (answer_request truncatedContext question) ;;
     let answer := JS.or_else (first_choice_content chatCompletion) "Answer not available" in
     ret answer)
    (fun error => throw ("Q&A failed: " +:+ error)).

(** [aiOperationsLimiter]: the limiter is disabled and only calls [next()]. *)
Definition aiOperationsLimiter {A} (next : M A) : M A := next.

(** *** Upload *)

(** [upload.single("file")]: a part the filter refuses, or one over the
    size limit, ends the middleware with an error (a [Throw] here, which is
    [next(err)]); otherwise the part is stored under
    [Date.now() + "-" + originalname] and described in [req.file].  With no
    part at all [req.file] stays undefined. *)
Definition upload_single (part : option Upload) : M (option StoredFile) :=
  match part with
  | None => ret None
  | Some file =>
      match fileFilter file with
      | Some err => throw err
      | None =>
          if (size file >? fileSizeLimit)%Z then throw "File too large"
          else
            now <- Date_now ;;
            let path := uploadDir +:+ "/" +:+ pretty now +:+ "-" +:+ originalname file in
            fs_writeFile path (data file) ;;;
            ret (Some {| file_originalname := originalname file;
                         file_mimetype := mimetype file;
                         file_size := size file;
                         file_path := path |})
      end
  end.

(** The handler of [POST /upload]. *)
Definition upload_handler (req_file : option StoredFile) (user : ObjectId) : M Response :=
  try_catch
    (match req_file with
     | None => throw "TypeError: Cannot read properties of undefined (reading 'mimetype')"
     | Some file =>
         if negb (String.eqb (file_mimetype file) "application/pdf")
            && negb (String.eqb (file_mimetype file) "text/plain")
         then res 400 (JMessage "Only PDF and text files are allowed")
         else
           let filePath := file_path file in
           extractedText <-
             (if String.eqb (file_mimetype file) "application/pdf" then
                dataBuffer <- fs_readFileSync filePath ;;
                match pdf dataBuffer with
                | Some text => ret text
                | None => throw "Invalid PDF structure"
                end
              else if String.eqb (file_mimetype file) "text/plain" then
                fs_readFileSync filePath
              else ret "") ;;
           now <- Date_now ;;
           let document :=
             {| Document.filename := file_originalname file;
                Document.filepath := filePath;
                Document.text := extractedText;
                Document.userId := user;
                Document.uploadDate := now;
                Document.fileSize := Some (file_size file);
                Document.mimeType := Some (file_mimetype file) |} in
           id <- Document_save document ;;
           cleanupFile filePath ;;;
           res 200 (JUploaded "File uploaded successfully" id document)
     end)
    (fun error => res 500 (JMessage "File upload failed")).

(** Express's own error handler, the only one [index.js] leaves in place:
    an error without a [status] is answered with a 500. *)
Definition express_default_error (err : string) : M Response :=
  res 500 (ErrorPage err).

(** [router.post("/upload", upload.single("file"), handler)] *)
Definition post_upload (part : option Upload) (user : ObjectId) : M Response :=
  try_catch
    (req_file <- upload_single part ;; upload_handler req_file user)
    express_default_error.

(** *** Documents *)

(** [GET /documents] *)
Definition get_documents (user : ObjectId) : M Response :=
  try_catch
    (documents <- Document_find_sorted user ;;
     res 200 (JDocuments documents))
    (fun error => res 500 (JMessage "Failed to fetch documents")).

(** [GET /documents/:id] *)
Definition get_document (id user : ObjectId) : M Response :=
  try_catch
    (document <- Document_findById id ;;
     match document with
     | None => res 404 (JMessage "Document not found")
     | Some document =>
         if negb (N.eqb (Document.userId document) user)
         then res 403 (JMessage "Unauthorized to access this document")
         else res 200 (JDocument id document)
     end)
    (fun error => res 500 (JMessage "Failed to fetch document")).

(** [GET /summary/:documentId] *)
Definition get_summary (documentId user : ObjectId) : M Response :=
  try_catch
    (document <- Document_findById documentId ;;
     match document with
     | None => res 404 (JMessage "Document not found")
     | Some document =>
         if negb (N.eqb (Document.userId document) user)
         then res 403 (JMessage "Unauthorized to access this document")
         else
           summary <- Summary_findOne documentId user ;;
           match summary with
           | None => res 404 (JMessage "Summary not found")
           | Some summary =>
               res 200 (JSummaryCreated (Summary.content summary) (Summary.createdAt summary))
           end
     end)
    (fun error => res 500 (JMessage "Failed to fetch summary")).

(** [POST /summarize] *)
Definition post_summarize (documentId user : ObjectId) : M Response :=
  aiOperationsLimiter
  (try_catch
    (document <- Document_findById documentId ;;
     match document with
     | None => res 404 (JMessage "Document not found")
     | Some document =>
         if negb (N.eqb (Document.userId document) user)
         then res 403 (JMessage "Unauthorized to access this document")
         else
           existingSummary <- Summary_findOne documentId user ;;
           match existingSummary with
           | Some existingSummary => res 200 (JSummary (Summary.content existingSummary))
           | None =>
               textChunks <- terminates (splitTextIntoChunks (Document.text document) 1000) ;;
               summaries <-
                 for_of textChunks
                   (fun chunk summaries =>
                      summary <- summarizeText chunk ;;
                      ret (summaries ++ [summary]))
                   [] ;;
               let combinedSummary := JS.join " " summaries in
               newSummary <- Summary_new documentId user combinedSummary ;;
               Summary_save newSummary ;;;
               res 200 (JSummary combinedSummary)
           end
     end)
    (fun error => res 500 (JMessage "Summarization failed"))).

(** [POST /ask] *)
Definition post_ask (documentId : ObjectId) (question : string) (user : ObjectId) : M Response :=
  aiOperationsLimiter
  (try_catch
    (document <- Document_findById documentId ;;
     match document with
     | None => res 404 (JMessage "Document not found")
     | Some document =>
         if negb (N.eqb (Document.userId document) user)
         then res 403 (JMessage "Unauthorized to access this document")
         else
           answer <- answerQuestion (Document.text document) question ;;
           qaEntry <- QAHistory_new documentId user question answer ;;
           QAHistory_save qaEntry ;;;
           res 200 (JAnswer answer)
     end)
    (fun error => res 500 (JMessage "Q&A failed"))).

(** [GET /qa-history/:documentId] *)
Definition get_qa_history (documentId user : ObjectId) : M Response :=
  try_catch
    (document <- Document_findById documentId ;;
     match document with
     | None => res 404 (JMessage "Document not found")
     | Some document =>
         if negb (N.eqb (Document.userId document) user)
         then res 403 (JMessage "Unauthorized to access this document")
         else
           qaHistory <- QAHistory_find_sorted documentId user ;;
           res 200 (JQAHistory qaHistory)
     end)
    (fun error => res 500 (JMessage "Failed to fetch Q&A history")).

(** [DELETE /documents/:id] *)
Definition delete_document (id user : ObjectId) : M Response :=
  try_catch
    (document <- Document_findById id ;;
     match document with
     | None => res 404 (JMessage "Document not found")
     | Some document =>
         if negb (N.eqb (Document.userId document) user)
         then res 403 (JMessage "Unauthorized to delete this document")
         else
           Summary_deleteMany id user ;;;
           QAHistory_deleteMany id user ;;;
           present <- fs_existsSync (Document.filepath document) ;;
           (if present then fs_unlinkSync (Document.filepath document) else ret tt) ;;;
           Document_findByIdAndDelete id ;;;
           res 200 (JMessage "Document and related data deleted successfully")
     end)
    (fun error => res 500 (JMessage "Failed to delete document")).

(** The router, for a caller that [authenticate] let through as [user]. *)
Definition handle (user : ObjectId) (r : Route) : M Response :=
  match r with
  | GetDocument id => get_document id user
  | DeleteDocument id => delete_document id user
  | GetSummary documentId => get_summary documentId user
  | PostSummarize documentId => post_summarize documentId user
  | PostAsk documentId question => post_ask documentId question user
  | GetQAHistory documentId => get_qa_history documentId user
  end.

(** The document a route is about. *)
Definition route_document (r : Route) : ObjectId :=
  match r with
  | GetDocument id | DeleteDocument id => id
  | GetSummary d | PostSummarize d | PostAsk d _ | GetQAHistory d => d
  end.

End Routes.

(** ** Vocabulary for the statements *)

(** A string in which the character [sep] does not occur. *)
Fixpoint free_of (sep : ascii) (s : string) : Prop :=
  match s with
  | EmptyString => True
  | String c rest => c ≠ sep ∧ free_of sep rest
  end.

(** How a list is cut into consecutive groups of [size] elements: every
    group is non-empty and holds at most [size] elements, and every group
    but the last holds exactly [size]. *)
Definition grouped {A} (size : nat) (groups : list (list A)) (l : list A) : Prop :=
  concat groups = l
  ∧ ∀ k g, groups !! k = Some g →
      (1 ≤ length g ≤ size)%nat ∧ (S k < length groups → length g = size)%nat.

(** [sent] is [text] cut to [maxLength] characters under the ellipsis
    policy: untouched up to the ceiling, otherwise the first [maxLength]
    characters followed by three dots. *)
Definition truncated (maxLength : Z) (text sent : string) : Prop :=
  ((JS.length text ≤ maxLength)%Z → sent = text)
  ∧ ((JS.length text > maxLength)%Z →
       ∃ kept dropped,
         text = kept +:+ dropped ∧ JS.length kept = maxLength ∧ sent = kept +:+ "...").

(** Two worlds that differ at most in their trace. *)
Definition same_stores (w w' : World) : Prop :=
  documents w' = documents w ∧ summaries w' = summaries w
  ∧ qaHistory w' = qaHistory w ∧ files w' = files w ∧ clock w' = clock w.

(** The world [w] with more events on its trace. *)
Definition after (w : World) (events : list Event) : World :=
  {| documents := documents w; summaries := summaries w; qaHistory := qaHistory w;
     files := files w; clock := clock w; trace := trace w ++ events |}.

(** The text [summarizeText] puts in its request for a chunk. *)
Definition chunk_text (chunk : string) : string :=
  if (JS.length chunk >? 8000)%Z then JS.substring chunk 0 8000 +:+ "..." else chunk.

(** The request [summarizeText] sends for a chunk. *)
Definition chunk_request (chunk : string) : ChatRequest :=
  summarize_request (chunk_text chunk).

(** The loop of [POST /summarize], started with [acc] in [summaries]. *)
Definition summarize_loop (groq : list Event → ChatRequest → GroqResult)
    (chunks : list string) (acc : list string) : M (list string) :=
  for_of chunks
    (λ chunk summaries,
       bind (summarizeText groq chunk) (λ summary, ret (summaries ++ [summary])))
    acc.

(** The answers of the model to a run of requests sent one after the
    other, the first one after [log]. *)
Fixpoint replies (groq : list Event → ChatRequest → GroqResult)
    (log : list Event) (requests : list ChatRequest) : list GroqResult :=
  match requests with
  | [] => []
  | r :: rs => groq log r :: replies groq (log ++ [EGroq r]) rs
  end.

(** The summary [summarizeText] makes of an answer; an error has none. *)
Definition summary_of (reply : GroqResult) : option string :=
  match reply with
  | GroqCompletion choices =>
      Some (JS.or_else (first_choice_content choices) "Summary not available")
  | GroqError _ => None
  end.

(** The row [POST /summarize] builds from the combined summary. *)
Definition summary_row (id user : ObjectId) (combined : string) (w : World) : Summary.t :=
  {| Summary.documentId := id; Summary.userId := user; Summary.content := combined;
     Summary.createdAt := clock w; Summary.updatedAt := clock w |}.

(** The world after [row] was saved in [w]. *)
Definition summary_saved (row : Summary.t) (w : World) : World :=
  {| documents := documents w; summaries := summaries w ++ [row];
     qaHistory := qaHistory w; files := files w; clock := clock w;
     trace := trace w ++ [ESummarySave row] |}.

(** The specification's reading of a word, for comparison with [JS.split]:
    "tokenize on whitespace" taken as the maximal runs of characters that
    are not white space (tab, line feed, vertical tab, form feed, carriage
    return, space). *)
Definition spec_is_whitespace (c : ascii) : bool :=
  let n := N_of_ascii c in
  ((9 <=? n)%N && (n <=? 13)%N) || (n =? 32)%N.

Fixpoint spec_whitespace_words (s : string) : list string :=
  match s with
  | EmptyString => []
  | String c rest =>
      if spec_is_whitespace c then spec_whitespace_words rest
      else
        match rest with
        | EmptyString => [String c EmptyString]
        | String c' _ =>
            if spec_is_whitespace c' then String c EmptyString :: spec_whitespace_words rest
            else
              match spec_whitespace_words rest with
              | [] => [String c EmptyString]
              | word :: words => String c word :: words
              end
        end
  end.

(** ** Sample inputs *)

Fixpoint string_repeat (c : ascii) (n : nat) : string :=
  match n with
  | O => EmptyString
  | S n' => String c (string_repeat c n')
  end.

(** A note of three words owned by user 7, stored as document 1. *)
Definition sample_document : Document.t :=
  {| Document.filename := "notes.txt";
     Document.filepath := "/srv/uploads/1700000000000-notes.txt";
     Document.text := "hello big world";
     Document.userId := 7%N;
     Document.uploadDate := 1700000000000%Z;
     Document.fileSize := Some 15%Z;
     Document.mimeType := Some "text/plain" |}.

Definition sample_world : World :=
  {| documents := {[ 1%N := sample_document ]};
     summaries := [];
     qaHistory := [];
     files := {[ "/srv/uploads/1700000000000-notes.txt" := "hello big world" ]};
     clock := 1700000005000%Z;
     trace := [] |}.

(** A text of 1001 one-letter words: two chunks. *)
Definition long_document : Document.t :=
  {| Document.filename := "long.txt";
     Document.filepath := "/srv/uploads/1700000000001-long.txt";
     Document.text := JS.join " " (replicate 1001 "w");
     Document.userId := 7%N;
     Document.uploadDate := 1700000000001%Z;
     Document.fileSize := Some 2001%Z;
     Document.mimeType := Some "text/plain" |}.

Definition long_world : World :=
  {| documents := {[ 2%N := long_document ]};
     summaries := [];
     qaHistory := [];
     files := ∅;
     clock := 1700000005000%Z;
     trace := [] |}.

Definition long_chunks : list string := [JS.join " " (replicate 1000 "w"); "w"].

(** A stored document whose text is empty. *)
Definition blank_document : Document.t :=
  {| Document.filename := "blank.txt";
     Document.filepath := "/srv/uploads/1700000000002-blank.txt";
     Document.text := "";
     Document.userId := 7%N;
     Document.uploadDate := 1700000000002%Z;
     Document.fileSize := Some 0%Z;
     Document.mimeType := Some "text/plain" |}.

Definition blank_world : World :=
  {| documents := {[ 3%N := blank_document ]};
     summaries := [];
     qaHistory := [];
     files := ∅;
     clock := 1700000005000%Z;
     trace := [] |}.

(** Document 1 with a summary and two identical questions already asked. *)
Definition sample_summary : Summary.t :=
  {| Summary.documentId := 1%N; Summary.userId := 7%N; Summary.content := "A greeting.";
     Summary.createdAt := 1700000001000%Z; Summary.updatedAt := 1700000001000%Z |}.

Definition sample_entry (at_time : Date) : QAHistory.t :=
  {| QAHistory.documentId := 1%N; QAHistory.userId := 7%N;
     QAHistory.question := "Who is greeted?"; QAHistory.answer := "The world.";
     QAHistory.createdAt := at_time |}.

Definition busy_world : World :=
  {| documents := {[ 1%N := sample_document ]};
     summaries := [sample_summary];
     qaHistory := [sample_entry 1700000002000%Z; sample_entry 1700000003000%Z];
     files := {[ "/srv/uploads/1700000000000-notes.txt" := "hello big world" ]};
     clock := 1700000005000%Z;
     trace := [] |}.

(** A model that numbers its answers by the calls made so far, one that
    always gives the same answer, and one that answers only its first call. *)
Definition numbering_groq : list Event → ChatRequest → GroqResult :=
  λ log _, GroqCompletion [Some ("part " +:+ pretty (length log))].

Definition steady_groq (reply : string) : list Event → ChatRequest → GroqResult :=
  λ _ _, GroqCompletion [Some reply].

Definition flaky_groq : list Event → ChatRequest → GroqResult :=
  λ log _,
    match log with
    | [] => GroqCompletion [Some "part 0"]
    | _ :: _ => GroqError "429 Too Many Requests"
    end.

(** 2500 one-letter words, one per line, and the same separated by spaces. *)
Definition line_text : string := JS.join nl (replicate 2500 "w").
Definition spaced_text : string := JS.join " " (replicate 2500 "w").

(** A chunk of 9000 characters. *)
Definition nine_thousand : string := string_repeat "x" (9 * 1000).

(** An upload of a PNG image. *)
Definition png_upload (name : string) (bytes : Z) (data : string) : Upload :=
  {| originalname := name; mimetype := "image/png"; size := bytes; data := data |}.

(** ** The rest of the application *)

(** The text [answerQuestion] puts in its request for a context. *)
Definition context_text (context : string) : string :=
  if (JS.length context >? 12000)%Z then JS.substring context 0 12000 +:+ "..." else context.

(** The path multer stores an upload under. *)
Definition upload_path (uploadDir : string) (now : Date) (file : Upload) : string :=
  uploadDir +:+ "/" +:+ pretty now +:+ "-" +:+ originalname file.

(** The callback [cleanupFile] arms: [fs.unlink(filePath, cb)] removes the
    file when it is still there; an error is only logged. *)
Definition cleanup_fires (path : string) (w : World) : World :=
  match files w !! path with
  | Some _ =>
      emit (EUnlink path)
        {| documents := documents w; summaries := summaries w;
           qaHistory := qaHistory w; files := delete path (files w);
           clock := clock w; trace := trace w |}
  | None => w
  end.

(** Time passing between two requests. *)
Definition clock_moves (now : Date) (w : World) : World :=
  {| documents := documents w; summaries := summaries w; qaHistory := qaHistory w;
     files := files w; clock := now; trace := trace w |}.

(** What can happen to the server: a request on a document, the listing,
    an upload, the clock moving on, a cleanup timer firing. *)
Inductive Step :=
| OnDocument (user : ObjectId) (r : Route)
| OnDocuments (user : ObjectId)
| OnUpload (user : ObjectId) (part : option Upload)
| OnClock (now : Date)
| OnCleanup (path : string).

Definition step (groq : list Event → ChatRequest → GroqResult)
    (pdf : string → option string) (uploadDir : string) (s : Step) (w : World) : World :=
  match s with
  | OnDocument user r => (handle groq user r w).2
  | OnDocuments user => (get_documents user w).2
  | OnUpload user part => (post_upload pdf uploadDir part user w).2
  | OnClock now => clock_moves now w
  | OnCleanup path => cleanup_fires path w
  end.

Definition run (groq : list Event → ChatRequest → GroqResult)
    (pdf : string → option string) (uploadDir : string) (steps : list Step) (w : World)
  : World :=
  fold_left (λ w s, step groq pdf uploadDir s w) steps w.

(** A server that has stored nothing yet. *)
Definition fresh_world (now : Date) : World :=
  {| documents := ∅; summaries := []; qaHistory := []; files := ∅;
     clock := now; trace := [] |}.

(** At most one Summary row for a document and a user. *)
Definition one_summary_per_pair (w : World) : Prop :=
  ∀ id user, (length (List.filter (Summary.matches id user) (summaries w)) ≤ 1)%nat.

(** Every Summary and QAHistory row belongs to a stored document and to
    the owner of that document. *)
Definition rows_have_owned_documents (w : World) : Prop :=
  Forall (λ s, ∃ d, documents w !! Summary.documentId s = Some d
                    ∧ Document.userId d = Summary.userId s) (summaries w)
  ∧ Forall (λ q, ∃ d, documents w !! QAHistory.documentId q = Some d
                      ∧ Document.userId d = QAHistory.userId q) (qaHistory w).

(** Every stored row passes the validation of its schema. *)
Definition rows_are_valid (w : World) : Prop :=
  map_Forall (λ _ d, Document.validate d = true) (documents w)
  ∧ Forall (λ s, Summary.validate s = true) (summaries w)
  ∧ Forall (λ q, QAHistory.validate q = true) (qaHistory w).

(** The text the upload handler extracts from an accepted file: what
    [pdf-parse] gives for a PDF, the contents for plain text. *)
Definition extracted_text (pdf : string → option string) (file : Upload) : option string :=
  if String.eqb (mimetype file) "application/pdf" then pdf (data file)
  else if String.eqb (mimetype file) "text/plain" then Some (data file)
  else Some "".

(** The document the upload handler builds. *)
Definition uploaded_document (path : string) (now : Date) (user : ObjectId)
    (file : Upload) (text : string) : Document.t :=
  {| Document.filename := originalname file;
     Document.filepath := path;
     Document.text := text;
     Document.userId := user;
     Document.uploadDate := now;
     Document.fileSize := Some (size file);
     Document.mimeType := Some (mimetype file) |}.

(** The ways one step can change the three collections. *)
Inductive Delta (w w1 : World) : Prop :=
| DeltaNone :
    documents w1 = documents w → summaries w1 = summaries w →
    qaHistory w1 = qaHistory w → Delta w w1
| DeltaSummary (id user : ObjectId) (d : Document.t) (row : Summary.t) :
    documents w !! id = Some d → Document.userId d = user →
    List.find (Summary.matches id user) (summaries w) = None →
    Summary.documentId row = id → Summary.userId row = user →
    Summary.validate row = true →
    documents w1 = documents w → summaries w1 = summaries w ++ [row] →
    qaHistory w1 = qaHistory w → Delta w w1
| DeltaQuestion (id user : ObjectId) (d : Document.t) (row : QAHistory.t) :
    documents w !! id = Some d → Document.userId d = user →
    QAHistory.documentId row = id → QAHistory.userId row = user →
    QAHistory.validate row = true →
    documents w1 = documents w → summaries w1 = summaries w →
    qaHistory w1 = qaHistory w ++ [row] → Delta w w1
| DeltaDelete (id user : ObjectId) (d : Document.t) :
    documents w !! id = Some d → Document.userId d = user →
    documents w1 = delete id (documents w) →
    summaries w1 = List.filter (λ s, negb (Summary.matches id user s)) (summaries w) →
    qaHistory w1 = List.filter (λ q, negb (QAHistory.matches id user q)) (qaHistory w) →
    Delta w w1
| DeltaUpload (id : ObjectId) (d : Document.t) :
    documents w !! id = None → Document.validate d = true →
    documents w1 = <[id := d]> (documents w) → summaries w1 = summaries w →
    qaHistory w1 = qaHistory w → Delta w w1.

(** ** Credentials *)

(** [s.replace(pattern, replacement)] with a string pattern: the first
    occurrence only. *)
Fixpoint replace_first (pattern replacement s : string) : string :=
  if String.prefix pattern s
  then replacement +:+ String.substring (String.length pattern)
                         (String.length s - String.length pattern) s
  else match s with
       | EmptyString => EmptyString
       | String c rest => String c (replace_first pattern replacement rest)
       end.

(** [jwt.verify(token, secret)]: it throws, or gives the payload, of which
    only [userId] is read. *)
Inductive JwtResult :=
| JwtInvalid (message : string)
| JwtPayload (userId : option ObjectId).

Inductive AuthBody :=
| AToken (token : string)
| AMessage (message : string)
| AFailed (message error : string).

Record AuthResponse := { auth_status : Z; auth_body : AuthBody }.

Section Credentials.

(** The User model is not part of these sources; what the routes use of it
    is taken as given: the stored e-mail of a user, the password check, and
    the construction and saving of a new user, which fails with [None]. *)
Variable User : Type.
Variable email_of : User → string.
Variable comparePassword : User → string → option bool.
Variable User_save :
  list (ObjectId * User) → string → string → string → option (ObjectId * User).

(** [jwt.sign({ userId }, secret, { expiresIn: "7d" })] and [jwt.verify]. *)
Variable jwt_sign : ObjectId → string.
Variable jwt_verify : string → JwtResult.

(** [User.findById(id)] and [User.findOne({ email })] *)
Definition User_findById (users : list (ObjectId * User)) (id : option ObjectId)
  : option (ObjectId * User) :=
  match id with
  | None => None
  | Some id => List.find (λ row, N.eqb row.1 id) users
  end.

Definition User_findOne (users : list (ObjectId * User)) (email : string)
  : option (ObjectId * User) :=
  List.find (λ row, String.eqb (email_of row.2) email) users.

(** The body of [authenticate]: the id of the user put in [req.user], or
    the message of the error thrown. *)
Definition authenticate_try (users : list (ObjectId * User)) (authorization : option string)
  : string + ObjectId :=
  let token := option_map (replace_first "Bearer " "") authorization in
  match token with
  | None | Some EmptyString => inl "Authentication failed: No token provided"
  | Some token =>
      match jwt_verify token with
      | JwtInvalid e => inl e
      | JwtPayload userId =>
          match User_findById users userId with
          | None => inl "Authentication failed: User not found"
          | Some user => inr user.1
          end
      end
  end.

(** [authenticate]: [inr user] is [next()] with [req.user] set. *)
Definition authenticate (users : list (ObjectId * User)) (authorization : option string)
  : AuthResponse + ObjectId :=
  match authenticate_try users authorization with
  | inl error =>
      inl {| auth_status := 401; auth_body := AFailed "Authentication failed" error |}
  | inr user => inr user
  end.

(** [POST /signup] *)
Definition signup (users : list (ObjectId * User)) (username email password : string)
  : AuthResponse * list (ObjectId * User) :=
  match User_findOne users email with
  | Some existingUser =>
      ({| auth_status := 400; auth_body := AMessage "User already exists" |}, users)
  | None =>
      match User_save users username email password with
      | None =>
          ({| auth_status := 500; auth_body := AMessage "Something went wrong" |}, users)
      | Some user =>
          ({| auth_status := 201; auth_body := AToken (jwt_sign user.1) |}, users ++ [user])
      end
  end.

(** [POST /login] *)
Definition login (users : list (ObjectId * User)) (email password : string) : AuthResponse :=
  match User_findOne users email with
  | None => {| auth_status := 400; auth_body := AMessage "Invalid credentials" |}
  | Some user =>
      match comparePassword user.2 password with
      | None => {| auth_status := 500; auth_body := AMessage "Something went wrong" |}
      | Some false => {| auth_status := 400; auth_body := AMessage "Invalid credentials" |}
      | Some true => {| auth_status := 200; auth_body := AToken (jwt_sign user.1) |}
      end
  end.

(** [app.use("/api", authenticate, fileUploadRoutes)] for the document
    routes: the router is entered only with a resolved user. *)
Definition api (groq : list Event → ChatRequest → GroqResult)
    (users : list (ObjectId * User)) (authorization : option string) (r : Route)
    (w : World) : (AuthResponse + Outcome Response) * World :=
  match authenticate users authorization with
  | inl refused => (inl refused, w)
  | inr user => let (o, w') := handle groq user r w in (inr o, w')
  end.

End Credentials.

(** A user store and a token scheme to try the statements on: users are
    their e-mail and password, a token is the letter [t] and the id. *)
Definition sample_users : list (ObjectId * (string * string)) :=
  [(7%N, ("ada@example.org", "correct horse"))].

Definition sample_sign (id : ObjectId) : string := "t" +:+ pretty id.

Definition sample_verify (token : string) : JwtResult :=
  if String.eqb token "t7" then JwtPayload (Some 7%N)
  else if String.eqb token "t101" then JwtPayload (Some 101%N)
  else JwtInvalid "jwt malformed".

Definition sample_save (users : list (ObjectId * (string * string)))
    (username email password : string) : option (ObjectId * (string * string)) :=
  if String.eqb password "" then None
  else Some (N.of_nat (length users) + 100, (email, password))%N.

Definition sample_compare (user : string * string) (password : string) : option bool :=
  Some (String.eqb user.2 password).

(** More sample inputs: uploads, a model without content, a day of
    requests. *)
Definition hello_upload : Upload :=
  {| originalname := "hello.txt"; mimetype := "text/plain"; size := 11%Z;
     data := "Hello world" |}.



Definition no_pdf : string → option string := λ _, None.

Definition blank_groq : list Event → ChatRequest → GroqResult :=
  λ _ _, GroqCompletion [None].

Definition sample_steps : list Step :=
  [ OnUpload 7%N (Some hello_upload);
    OnDocument 7%N (PostSummarize 0%N);
    OnDocument 7%N (PostAsk 0%N "Who is greeted?");
    OnClock 1700000009000%Z;
    OnDocument 7%N (PostSummarize 0%N);
    OnDocument 8%N (DeleteDocument 0%N);
    OnCleanup "/srv/uploads/0-hello.txt";
    OnDocument 7%N (DeleteDocument 0%N) ].

(** * Properties *)

(** ** Strings *)

Example split_two_spaces : JS.split " " "a  b" = ["a"; ""; "b"].
Proof. reflexivity. Qed.

Example split_keeps_line_feeds : JS.split " " ("a" +:+ nl +:+ "b c") = ["a" +:+ nl +:+ "b"; "c"].
Proof. reflexivity. Qed.

Example chunks_small : splitTextIntoChunks "a b c d e" 2 = Some ["a b"; "c d"; "e"].
Proof. reflexivity. Qed.

Example chunks_zero_size : splitTextIntoChunks "a b" 0 = None.
Proof. reflexivity. Qed.

Lemma app_nil_l (b : string) : "" +:+ b = b.
Proof. reflexivity. Qed.

Lemma app_cons (c : ascii) (a b : string) : String c a +:+ b = String c (a +:+ b).
Proof. reflexivity. Qed.

Lemma string_app_assoc (a b c : string) : (a +:+ b) +:+ c = a +:+ (b +:+ c).
Proof.
  induction a as [|x a IH]; [done |].
  rewrite !app_cons. by rewrite IH.
Qed.

Lemma string_length_app (a b : string) :
  String.length (a +:+ b) = (String.length a + String.length b)%nat.
Proof.
  induction a as [|c a IH]; [done |].
  rewrite app_cons. simpl. by rewrite IH.
Qed.

(** The first [n] characters of a string that has at least [n]. *)
Lemma substring_prefix (n : nat) (s : string) :
  (n ≤ String.length s)%nat →
  ∃ rest, s = String.substring 0 n s +:+ rest
          ∧ String.length (String.substring 0 n s) = n.
Proof.
  revert s. induction n as [|n IH]; intros s Hn.
  - exists s. by destruct s.
  - destruct s as [|c s]; simpl in Hn; [lia |].
    destruct (IH s) as (rest & Heq & Hlen); [lia |].
    exists rest. simpl. rewrite app_cons, <- Heq, Hlen. done.
Qed.

Lemma js_substring_prefix (s : string) (n : Z) :
  (0 ≤ n ≤ JS.length s)%Z →
  ∃ rest, s = JS.substring s 0 n +:+ rest ∧ JS.length (JS.substring s 0 n) = n.
Proof.
  intros Hn. unfold JS.substring, JS.length in *.
  replace (Z.max 0 (Z.min 0 (Z.of_nat (String.length s)))) with 0%Z by lia.
  replace (Z.max 0 (Z.min n (Z.of_nat (String.length s)))) with n by lia.
  replace (Z.min 0 n) with 0%Z by lia.
  replace (Z.max 0 n - 0)%Z with n by lia.
  change (Z.to_nat 0) with 0%nat.
  destruct (substring_prefix (Z.to_nat n) s) as (rest & Heq & Hlen); [lia |].
  exists rest. split; [done | lia].
Qed.

Lemma split_nonempty (sep : ascii) (s : string) : JS.split sep s ≠ [].
Proof.
  destruct s as [|c s]; simpl; [done |].
  destruct (Ascii.eqb c sep); [done |]. by destruct (JS.split sep s).
Qed.

Lemma join_cons_cons (sep x y : string) (l : list string) :
  JS.join sep (x :: y :: l) = x +:+ sep +:+ JS.join sep (y :: l).
Proof. reflexivity. Qed.

(** [s.split(c).join(c)] is [s]. *)
Lemma join_split (sep : ascii) (s : string) :
  JS.join (String sep "") (JS.split sep s) = s.
Proof.
  induction s as [|c s IH]; simpl; [done |].
  pose proof (split_nonempty sep s) as Hne.
  destruct (Ascii.eqb_spec c sep) as [-> | Hc].
  - destruct (JS.split sep s) as [|p ps]; [done |].
    rewrite join_cons_cons, IH. reflexivity.
  - destruct (JS.split sep s) as [|p ps]; [done |].
    destruct ps as [|q qs].
    + simpl in *. by rewrite IH.
    + rewrite join_cons_cons in *. rewrite app_cons. by rewrite IH.
Qed.

Lemma split_free (sep : ascii) (s : string) : Forall (free_of sep) (JS.split sep s).
Proof.
  induction s as [|c s IH]; simpl.
  - by constructor.
  - destruct (Ascii.eqb_spec c sep) as [-> | Hc].
    + by constructor.
    + destruct (JS.split sep s) as [|p ps]; [by repeat constructor |].
      inversion IH; subst. by constructor.
Qed.

Lemma split_free_word (sep : ascii) (w : string) :
  free_of sep w → JS.split sep w = [w].
Proof.
  induction w as [|c w IH]; simpl; [done |]. intros [Hc Hw].
  destruct (Ascii.eqb_spec c sep); [done |]. by rewrite IH.
Qed.

Lemma split_word_sep (sep : ascii) (w tail : string) :
  free_of sep w → JS.split sep (w +:+ String sep tail) = w :: JS.split sep tail.
Proof.
  induction w as [|c w IH].
  - intros _. rewrite app_nil_l. simpl. by rewrite Ascii.eqb_refl.
  - intros [Hc Hw]. rewrite app_cons. simpl.
    destruct (Ascii.eqb_spec c sep); [done |]. by rewrite IH.
Qed.

(** [g.join(c).split(c)] is [g] for a non-empty [g] of pieces without [c]. *)
Lemma split_join (sep : ascii) (g : list string) :
  g ≠ [] → Forall (free_of sep) g →
  JS.split sep (JS.join (String sep "") g) = g.
Proof.
  induction g as [|w g IH]; [done |]. intros _ Hfree.
  inversion Hfree as [|? ? Hw Hg]; subst.
  destruct g as [|w' g].
  - simpl. by apply split_free_word.
  - rewrite join_cons_cons. rewrite app_cons, app_nil_l.
    rewrite split_word_sep by done. by rewrite IH.
Qed.

(** ** Chunking *)

Lemma grouped_nil_inv {A} (size : nat) (groups : list (list A)) :
  grouped size groups [] → groups = [].
Proof.
  intros [Hcat Hsz]. destruct groups as [|g gs]; [done |].
  destruct (Hsz 0%nat g eq_refl) as [Hlen _].
  simpl in Hcat. apply (f_equal length) in Hcat.
  rewrite length_app in Hcat. simpl in Hcat. lia.
Qed.

Lemma chunk_loop_spec (fuel : nat) (words : list string) (chunkSize i : nat)
    (chunks : list string) :
  (1 ≤ chunkSize)%nat → (length words - i ≤ fuel)%nat →
  ∃ groups,
    chunk_loop fuel words chunkSize i chunks = Some (chunks ++ map (JS.join " ") groups)
    ∧ grouped chunkSize groups (drop i words).
Proof.
  intros Hsize. revert i chunks.
  induction fuel as [|fuel IH]; intros i chunks Hfuel.
  - exists []. simpl. destruct (Nat.ltb_spec i (length words)); [lia |].
    rewrite app_nil_r, drop_ge by lia. split; [done |]. split; [done |].
    intros k g Hk. by rewrite lookup_nil in Hk.
  - simpl. destruct (Nat.ltb_spec i (length words)) as [Hlt | Hge].
    + destruct (IH (i + chunkSize)%nat
                  (chunks ++ [JS.join " " (JS.slice words i (i + chunkSize))]))
        as (gs & Hrun & Hcat & Hsz); [lia |].
      unfold JS.slice in *. replace (i + chunkSize - i)%nat with chunkSize in * by lia.
      exists (take chunkSize (drop i words) :: gs). split; [| split].
      * rewrite Hrun, <- app_assoc. reflexivity.
      * simpl. rewrite Hcat, <- drop_drop. apply take_drop.
      * intros [|k] g Hk; simpl in Hk.
        -- injection Hk as <-. rewrite length_take, length_drop. split; [lia |].
           simpl. intros Hmore. destruct gs as [|g' gs']; [simpl in Hmore; lia |].
           destruct (Hsz 0%nat g' eq_refl) as [Hg' _].
           apply (f_equal length) in Hcat. simpl in Hcat.
           rewrite length_app, length_drop in Hcat. lia.
        -- destruct (Hsz k g Hk) as [Hlen Hfull]. split; [done |].
           simpl. intros Hmore. apply Hfull. lia.
    + exists []. rewrite app_nil_r, drop_ge by lia. split; [done |]. split; [done |].
      intros k g Hk. by rewrite lookup_nil in Hk.
Qed.

(** With a chunk size of at least one the loop ends, and its chunks are the
    space-joined groups of the pieces of the text. *)
Lemma splitTextIntoChunks_grouped (text : string) (chunkSize : nat) :
  (1 ≤ chunkSize)%nat →
  ∃ groups,
    splitTextIntoChunks text chunkSize = Some (map (JS.join " ") groups)
    ∧ grouped chunkSize groups (JS.split " " text).
Proof.
  intros Hsize. unfold splitTextIntoChunks.
  destruct (chunk_loop_spec (length (JS.split " " text)) (JS.split " " text)
              chunkSize 0 [] Hsize) as (gs & Hrun & Hgr); [lia |].
  exists gs. by rewrite Hrun.
Qed.

Lemma grouped_nonempty {A} (size : nat) (groups : list (list A)) (l : list A) :
  grouped size groups l → l ≠ [] → groups ≠ [].
Proof. intros [Hcat _] Hl ->. by apply Hl. Qed.

Lemma grouped_members {A} (size : nat) (groups : list (list A)) (l : list A)
    (P : A → Prop) :
  grouped size groups l → Forall P l → Forall (λ g, g ≠ [] ∧ Forall P g) groups.
Proof.
  intros [Hcat Hsz] Hall. subst l. apply Forall_lookup. intros k g Hk. split.
  - destruct (Hsz k g Hk) as [Hlen _]. destruct g; [simpl in Hlen; lia | done].
  - rewrite Forall_concat in Hall. by eapply Forall_lookup_1 in Hall.
Qed.

(** Joining groups one by one and then joining the results is joining
    everything at once, as long as no group is empty. *)
Lemma join_join (sep : string) (groups : list (list string)) :
  Forall (λ g, g ≠ []) groups →
  JS.join sep (map (JS.join sep) groups) = JS.join sep (concat groups).
Proof.
  assert (Happ : ∀ g l : list string, g ≠ [] → l ≠ [] →
            JS.join sep (g ++ l) = JS.join sep g +:+ sep +:+ JS.join sep l).
  { induction g as [|x g IHg]; [done |]. intros l _ Hl.
    destruct g as [|y g].
    - destruct l; [done | reflexivity].
    - change ((x :: y :: g) ++ l) with (x :: (y :: g) ++ l).
      change ((y :: g) ++ l) with (y :: g ++ l) at 1.
      rewrite join_cons_cons. change (y :: g ++ l) with ((y :: g) ++ l).
      rewrite IHg, join_cons_cons by done.
      rewrite !string_app_assoc. reflexivity. }
  induction groups as [|g gs IH]; [done |]. intros Hne.
  inversion Hne as [|? ? Hg Hgs]; subst. specialize (IH Hgs).
  destruct gs as [|g' gs].
  - simpl. by rewrite app_nil_r.
  - change (map (JS.join sep) (g :: g' :: gs))
      with (JS.join sep g :: JS.join sep g' :: map (JS.join sep) gs).
    rewrite join_cons_cons.
    change (JS.join sep g' :: map (JS.join sep) gs) with (map (JS.join sep) (g' :: gs)).
    rewrite IH. change (concat (g :: g' :: gs)) with (g ++ concat (g' :: gs)).
    rewrite Happ; [done | done |].
    inversion Hgs; subst. simpl. destruct g'; [done | done].
Qed.

(** ** Worlds and traces *)

Lemma emit_after (e : Event) (w : World) : emit e w = after w [e].
Proof. reflexivity. Qed.

Lemma after_nil (w : World) : after w [] = w.
Proof. destruct w. unfold after. simpl. by rewrite app_nil_r. Qed.

Lemma after_after (w : World) (a b : list Event) : after (after w a) b = after w (a ++ b).
Proof. unfold after. simpl. by rewrite app_assoc. Qed.

Lemma same_stores_after (w : World) (events : list Event) : same_stores w (after w events).
Proof. by repeat split. Qed.

(** ** The routes *)

Section Properties.

Variable groq : list Event → ChatRequest → GroqResult.

Ltac unfold_routes :=
  unfold handle, get_document, delete_document, get_summary, post_summarize, post_ask,
    get_qa_history, aiOperationsLimiter, try_catch, bind, res, ret, throw,
    Document_findById, Summary_findOne.

(** *** Ownership *)

(** C1. For a stored document and a caller who is not its owner, each of
    the six document routes answers 403 and hands back the world it was
    given: the Document, Summary and QAHistory collections, the disk and
    the trace of outside effects are all untouched. *)
Theorem foreign_caller_is_refused (w : World) (user : ObjectId) (r : Route)
    (d : Document.t) :
  documents w !! route_document r = Some d →
  Document.userId d ≠ user →
  ∃ message,
    handle groq user r w = (Ok {| status := 403; body := JMessage message |}, w).
Proof.
  intros Hdoc Hown. apply N.eqb_neq in Hown.
  destruct r; simpl in Hdoc; unfold_routes; rewrite Hdoc, Hown; simpl; eauto.
Qed.

(** *** Truncation *)

Lemma chunk_text_truncated (text : string) : truncated 8000 text (chunk_text text).
Proof.
  unfold truncated, chunk_text.
  destruct (Z.gtb_spec (JS.length text) 8000) as [Hgt | Hle]; split; try lia; try done.
  intros _. destruct (js_substring_prefix text 8000) as (rest & Heq & Hlen); [lia |].
  by exists (JS.substring text 0 8000), rest.
Qed.

Lemma summarizeText_run (text : string) (w : World) :
  summarizeText groq text w =
    match groq (trace w) (summarize_request (chunk_text text)) with
    | GroqError e =>
        (Throw ("Summarization failed: " +:+ e),
         after w [EGroq (summarize_request (chunk_text text))])
    | GroqCompletion choices =>
        (Ok (JS.or_else (first_choice_content choices) "Summary not available"),
         after w [EGroq (summarize_request (chunk_text text))])
    end.
Proof.
  unfold summarizeText, try_catch, bind, groq_chat_completions_create, chunk_text, ret, throw.
  by destruct (groq _ _).
Qed.

(** C4. [summarizeText] sends its chunk cut to 8000 characters and
    [answerQuestion] sends the document text cut to 12000, both under the
    same policy: a text within the ceiling goes out as it is, a longer one
    as its first characters up to the ceiling followed by three dots.  A
    chunk of 9000 characters therefore goes out as 8003. *)
Theorem truncation_before_upstream_call (text context question : string) (w : World) :
  (∃ sent,
      truncated 8000 text sent
      ∧ trace (summarizeText groq text w).2 = trace w ++ [EGroq (summarize_request sent)]
      ∧ (JS.length text = 9000%Z → JS.length sent = 8003%Z))
  ∧ (∃ sent,
      truncated 12000 context sent
      ∧ trace (answerQuestion groq context question w).2
        = trace w ++ [EGroq (answer_request sent question)])
  ∧ (8000 < 12000)%Z.
Proof.
  split; [| split; [| lia]].
  - exists (chunk_text text). split; [apply chunk_text_truncated |]. split.
    + rewrite summarizeText_run. by destruct (groq _ _).
    + intros H9. destruct (chunk_text_truncated text) as [_ Hlong].
      destruct Hlong as (kept & dropped & _ & Hkept & ->); [lia |].
      unfold JS.length in *. rewrite string_length_app. simpl. lia.
  - exists (if (JS.length context >? 12000)%Z
            then JS.substring context 0 12000 +:+ "..." else context).
    split.
    + unfold truncated.
      destruct (Z.gtb_spec (JS.length context) 12000) as [Hgt | Hle]; split; try lia; try done.
      intros _. destruct (js_substring_prefix context 12000) as (rest & Heq & Hlen); [lia |].
      by exists (JS.substring context 0 12000), rest.
    + unfold answerQuestion, try_catch, bind, groq_chat_completions_create, ret, throw.
      by destruct (groq _ _).
Qed.

(** *** The summarization loop *)

Lemma summarize_loop_nil (acc : list string) (w : World) :
  summarize_loop groq [] acc w = (Ok acc, w).
Proof. reflexivity. Qed.

Lemma summarize_loop_cons (c : string) (chunks acc : list string) (w : World) :
  summarize_loop groq (c :: chunks) acc w =
    match groq (trace w) (chunk_request c) with
    | GroqError e =>
        (Throw ("Summarization failed: " +:+ e), after w [EGroq (chunk_request c)])
    | GroqCompletion choices =>
        summarize_loop groq chunks
          (acc ++ [JS.or_else (first_choice_content choices) "Summary not available"])
          (after w [EGroq (chunk_request c)])
    end.
Proof.
  unfold summarize_loop. simpl for_of. unfold bind at 1. unfold bind at 1.
  rewrite summarizeText_run. fold (chunk_request c).
  by destruct (groq (trace w) (chunk_request c)).
Qed.

(** Every answer is a completion: the loop calls the model once per chunk,
    in order, and collects the summaries in that order. *)
Lemma summarize_loop_ok (chunks : list string) :
  ∀ (acc : list string) (w : World) (sums : list string),
    Forall2 (λ reply s, summary_of reply = Some s)
      (replies groq (trace w) (map chunk_request chunks)) sums →
    summarize_loop groq chunks acc w
    = (Ok (acc ++ sums), after w (map (λ c, EGroq (chunk_request c)) chunks)).
Proof.
  induction chunks as [|c chunks IH]; intros acc w sums Hall; simpl in Hall.
  - inversion Hall; subst. rewrite summarize_loop_nil. simpl.
    by rewrite app_nil_r, after_nil.
  - inversion Hall as [|reply s rs sums' Hs Hrest]; subst.
    rewrite summarize_loop_cons.
    destruct (groq (trace w) (chunk_request c)) as [e | choices]; [done |].
    injection Hs as <-.
    rewrite (IH _ (after w [EGroq (chunk_request c)]) sums' Hrest).
    by rewrite after_after, <- app_assoc.
Qed.

(** The answer to chunk [k] is the first error: the loop stops there,
    having called the model for chunks [0 .. k] only. *)
Lemma summarize_loop_fails (chunks : list string) :
  ∀ (acc : list string) (w : World) (k : nat) (e : string),
    replies groq (trace w) (map chunk_request chunks) !! k = Some (GroqError e) →
    (∀ j reply, (j < k)%nat →
       replies groq (trace w) (map chunk_request chunks) !! j = Some reply →
       is_Some (summary_of reply)) →
    summarize_loop groq chunks acc w
    = (Throw ("Summarization failed: " +:+ e),
       after w (map (λ c, EGroq (chunk_request c)) (take (S k) chunks))).
Proof.
  induction chunks as [|c chunks IH]; intros acc w k e Hk Hbefore; simpl in Hk.
  - by rewrite lookup_nil in Hk.
  - rewrite summarize_loop_cons.
    destruct k as [|k]; simpl in Hk.
    + injection Hk as Hk. rewrite Hk. simpl; by rewrite ?take_0.
    + pose proof (Hbefore 0%nat _ ltac:(lia) eq_refl) as [s Hs].
      destruct (groq (trace w) (chunk_request c)) as [e' | choices]; [done |].
      rewrite (IH _ (after w [EGroq (chunk_request c)]) k e Hk).
      * by rewrite after_after.
      * intros j reply Hj Hlook. apply (Hbefore (S j) reply); [lia | done].
Qed.

(** Whatever the model answers, the loop ends and touches no store; over a
    non-empty list of chunks it starts with the call for the first chunk. *)
Lemma summarize_loop_total (chunks : list string) :
  ∀ (acc : list string) (w : World),
    ∃ outcome n,
      summarize_loop groq chunks acc w
      = (outcome, after w (map (λ c, EGroq (chunk_request c)) (take n chunks)))
      ∧ outcome ≠ Diverge
      ∧ (chunks ≠ [] → 1 ≤ n)%nat.
Proof.
  induction chunks as [|c chunks IH]; intros acc w.
  - exists (Ok acc), 0%nat. rewrite summarize_loop_nil. simpl. by rewrite after_nil.
  - rewrite summarize_loop_cons.
    destruct (groq (trace w) (chunk_request c)) as [e | choices].
    + exists (Throw ("Summarization failed: " +:+ e)), 1%nat. simpl; by rewrite ?take_0.
    + destruct (IH (acc ++ [JS.or_else (first_choice_content choices) "Summary not available"])
                  (after w [EGroq (chunk_request c)])) as (o & n & Hrun & Ho & _).
      exists o, (S n). rewrite Hrun, after_after. split; [done |]. split; [done | lia].
Qed.

Lemma or_else_nonempty (x : option string) (dflt : string) :
  dflt ≠ "" → JS.or_else x dflt ≠ "".
Proof. intros Hd. destruct x as [[|c s]|]; simpl; done. Qed.

Lemma summary_of_nonempty (reply : GroqResult) (s : string) :
  summary_of reply = Some s → s ≠ "".
Proof.
  destruct reply as [e | choices]; simpl; [done |].
  intros [= <-]. by apply or_else_nonempty.
Qed.

Lemma join_nonempty (sep x : string) (l : list string) :
  x ≠ "" → JS.join sep (x :: l) ≠ "".
Proof.
  intros Hx. destruct l as [|y l]; [done |].
  rewrite join_cons_cons. destruct x; [done |]. by rewrite app_cons.
Qed.

Lemma chunks_nonempty (text : string) (chunkSize : nat) (chunks : list string) :
  (1 ≤ chunkSize)%nat → splitTextIntoChunks text chunkSize = Some chunks → chunks ≠ [].
Proof.
  intros Hsize Hrun.
  destruct (splitTextIntoChunks_grouped text chunkSize Hsize) as (gs & Hgs & Hgr).
  rewrite Hgs in Hrun. injection Hrun as <-.
  pose proof (grouped_nonempty _ _ _ Hgr (split_nonempty _ _)).
  by destruct gs.
Qed.

(** *** Summarize *)

(** Past the ownership check and the look-up of an existing summary, the
    route is the loop followed by the save. *)
Lemma post_summarize_proceeds (w : World) (id user : ObjectId) (d : Document.t)
    (chunks : list string) :
  documents w !! id = Some d →
  Document.userId d = user →
  List.find (Summary.matches id user) (summaries w) = None →
  splitTextIntoChunks (Document.text d) 1000 = Some chunks →
  post_summarize groq id user w =
    match summarize_loop groq chunks [] w with
    | (Ok sums, w') =>
        if Summary.validate (summary_row id user (JS.join " " sums) w')
        then (Ok {| status := 200; body := JSummary (JS.join " " sums) |},
              summary_saved (summary_row id user (JS.join " " sums) w') w')
        else (Ok {| status := 500; body := JMessage "Summarization failed" |}, w')
    | (Throw e, w') => (Ok {| status := 500; body := JMessage "Summarization failed" |}, w')
    | (Diverge, w') => (Diverge, w')
    end.
Proof.
  intros Hdoc Hown Hnone Hchunks. apply N.eqb_eq in Hown.
  unfold post_summarize, aiOperationsLimiter, try_catch.
  unfold bind at 1. unfold Document_findById. rewrite Hdoc, Hown.
  change (negb true) with false. cbv iota.
  unfold bind at 1. unfold Summary_findOne. rewrite Hnone.
  unfold bind at 1. unfold terminates. rewrite Hchunks.
  unfold bind at 1. fold (summarize_loop groq chunks []).
  destruct (summarize_loop groq chunks [] w) as [[sums | e |] w']; [| done | done].
  unfold bind, Summary_new, Summary_save, res, ret.
  fold (summary_row id user (JS.join " " sums) w').
  by destruct (Summary.validate _).
Qed.

Lemma find_none_filter {A} (f : A → bool) (l : list A) :
  List.find f l = None → List.filter f l = [].
Proof.
  induction l as [|x l IH]; simpl; [done |]. destruct (f x); [done | exact IH].
Qed.

Lemma find_some_filter {A} (f : A → bool) (l : list A) (x : A) :
  List.find f l = Some x → (1 ≤ length (List.filter f l))%nat.
Proof.
  induction l as [|y l IH]; simpl; [done |]. destruct (f y); simpl; [lia | exact IH].
Qed.

Lemma find_app_new {A} (f : A → bool) (l : list A) (x : A) :
  List.find f l = None → f x = true → List.find f (l ++ [x]) = Some x.
Proof.
  intros Hnone Hx. induction l as [|y l IH]; simpl in *; [by rewrite Hx |].
  destruct (f y); [done | by apply IH].
Qed.

(** C5. Past the short-circuit, and with the model answering every call,
    the route calls the model once per chunk, in chunk order and for
    nothing else, saves one row whose content is the per-chunk summaries
    joined by single spaces in that order, and answers 200 with that same
    string. *)
Theorem combined_summary_is_joined_chunk_summaries (w : World) (id user : ObjectId)
    (d : Document.t) (chunks sums : list string) :
  documents w !! id = Some d →
  Document.userId d = user →
  List.find (Summary.matches id user) (summaries w) = None →
  splitTextIntoChunks (Document.text d) 1000 = Some chunks →
  Forall2 (λ reply s, summary_of reply = Some s)
    (replies groq (trace w) (map chunk_request chunks)) sums →
  let row := summary_row id user (JS.join " " sums) w in
  post_summarize groq id user w =
    (Ok {| status := 200; body := JSummary (JS.join " " sums) |},
     {| documents := documents w; summaries := summaries w ++ [row];
        qaHistory := qaHistory w; files := files w; clock := clock w;
        trace := trace w ++ map (λ c, EGroq (chunk_request c)) chunks ++ [ESummarySave row] |}).
Proof.
  intros Hdoc Hown Hnone Hchunks Hall row.
  rewrite (post_summarize_proceeds w id user d chunks) by done.
  rewrite (summarize_loop_ok chunks [] w sums Hall). simpl app.
  assert (Hvalid : Summary.validate
            (summary_row id user (JS.join " " sums)
               (after w (map (λ c, EGroq (chunk_request c)) chunks))) = true).
  { unfold Summary.validate, required. simpl.
    apply negb_true_iff, String.eqb_neq.
    assert (Hne : chunks ≠ []) by (eapply chunks_nonempty; [| exact Hchunks]; lia).
    destruct chunks as [|c chunks]; [done |]. simpl in Hall.
    inversion Hall as [|reply s rs sums' Hs Hrest]; subst.
    apply join_nonempty. by eapply summary_of_nonempty. }
  rewrite Hvalid. unfold summary_saved, summary_row, after. simpl.
  by rewrite <- app_assoc.
Qed.

(** C6. When the answer to some chunk is an error, the route stops at that
    call: it answers 500 "Summarization failed", the collections, disk and
    clock are as before (no row is saved, the summaries already obtained
    are dropped), and the next [POST /summarize] for the document starts
    again with the call for the first chunk. *)
Theorem failed_chunk_aborts_summarize (w : World) (id user : ObjectId)
    (d : Document.t) (chunks : list string) (k : nat) (e : string) :
  documents w !! id = Some d →
  Document.userId d = user →
  List.find (Summary.matches id user) (summaries w) = None →
  splitTextIntoChunks (Document.text d) 1000 = Some chunks →
  replies groq (trace w) (map chunk_request chunks) !! k = Some (GroqError e) →
  (∀ j reply, (j < k)%nat →
     replies groq (trace w) (map chunk_request chunks) !! j = Some reply →
     is_Some (summary_of reply)) →
  let w1 := after w (map (λ c, EGroq (chunk_request c)) (take (S k) chunks)) in
  post_summarize groq id user w
    = (Ok {| status := 500; body := JMessage "Summarization failed" |}, w1)
  ∧ same_stores w w1
  ∧ ∃ first resp w2,
      chunks !! 0%nat = Some first
      ∧ post_summarize groq id user w1 = (Ok resp, w2)
      ∧ trace w2 !! length (trace w1) = Some (EGroq (chunk_request first)).
Proof.
  intros Hdoc Hown Hnone Hchunks Hk Hbefore w1.
  split; [| split].
  - rewrite (post_summarize_proceeds w id user d chunks) by done.
    by rewrite (summarize_loop_fails chunks [] w k e Hk Hbefore).
  - apply same_stores_after.
  - assert (Hne : chunks ≠ []) by (eapply chunks_nonempty; [| exact Hchunks]; lia).
    destruct chunks as [|first chunks]; [done |]. exists first.
    rewrite (post_summarize_proceeds w1 id user d (first :: chunks)) by done.
    destruct (summarize_loop_total (first :: chunks) [] w1) as (o & n & Hrun & Ho & Hn).
    specialize (Hn ltac:(done)). destruct n as [|n]; [lia |].
    rewrite Hrun. simpl take. simpl map.
    destruct o as [sums | e' |]; [| | done].
    + destruct (Summary.validate _); eexists _, _; (split; [done |]); (split; [done |]); simpl.
      * apply lookup_app_l_Some. by apply list_lookup_middle.
      * by apply list_lookup_middle.
    + eexists _, _. split; [done |]. split; [done |].
      simpl. by apply list_lookup_middle.
Qed.

Lemma post_summarize_existing (w : World) (id user : ObjectId) (d : Document.t)
    (s : Summary.t) :
  documents w !! id = Some d →
  Document.userId d = user →
  List.find (Summary.matches id user) (summaries w) = Some s →
  post_summarize groq id user w
  = (Ok {| status := 200; body := JSummary (Summary.content s) |}, w).
Proof.
  intros Hdoc Hown Hsome. apply N.eqb_eq in Hown.
  unfold_routes. rewrite Hdoc, Hown. simpl. by rewrite Hsome.
Qed.

Lemma post_summarize_missing (w : World) (id user : ObjectId) :
  documents w !! id = None →
  post_summarize groq id user w
  = (Ok {| status := 404; body := JMessage "Document not found" |}, w).
Proof. intros Hdoc. unfold_routes. by rewrite Hdoc. Qed.

Lemma post_summarize_foreign (w : World) (id user : ObjectId) (d : Document.t) :
  documents w !! id = Some d →
  Document.userId d ≠ user →
  post_summarize groq id user w
  = (Ok {| status := 403; body := JMessage "Unauthorized to access this document" |}, w).
Proof.
  intros Hdoc Hown. apply N.eqb_neq in Hown. unfold_routes. by rewrite Hdoc, Hown.
Qed.

(** C2. With a Summary row already stored for the document and the caller,
    [POST /summarize] answers 200 with the content of that row and gives
    back the world untouched: no chunk is cut, the model is not called,
    nothing is written.  Hence after any call that answered 200, a second
    call answers the same and changes nothing; and when the pair had at
    most one row before the first call, it has exactly one after both. *)
Theorem summarize_is_idempotent (w : World) (id user : ObjectId) :
  (∀ d s,
      documents w !! id = Some d →
      Document.userId d = user →
      List.find (Summary.matches id user) (summaries w) = Some s →
      post_summarize groq id user w
      = (Ok {| status := 200; body := JSummary (Summary.content s) |}, w))
  ∧ (∀ resp w1,
      post_summarize groq id user w = (Ok resp, w1) →
      status resp = 200%Z →
      post_summarize groq id user w1 = (Ok resp, w1)
      ∧ ((length (List.filter (Summary.matches id user) (summaries w)) ≤ 1)%nat →
         length (List.filter (Summary.matches id user) (summaries w1)) = 1%nat)).
Proof.
  split; [intros d s; apply post_summarize_existing |].
  intros resp w1 Hrun H200.
  destruct (documents w !! id) as [d|] eqn:Hdoc;
    [| rewrite post_summarize_missing in Hrun by done;
       injection Hrun as <- <-; simpl in H200; lia].
  destruct (decide (Document.userId d = user)) as [Hown | Hown];
    [| rewrite (post_summarize_foreign w id user d) in Hrun by done;
       injection Hrun as <- <-; simpl in H200; lia].
  destruct (List.find (Summary.matches id user) (summaries w)) as [s|] eqn:Hfind.
  - rewrite (post_summarize_existing w id user d s) in Hrun by done.
    injection Hrun as <- <-. split.
    + by apply (post_summarize_existing w id user d s).
    + intros Hle. apply find_some_filter in Hfind. lia.
  - destruct (splitTextIntoChunks_grouped (Document.text d) 1000) as (gs & Hchunks & _);
      [lia |].
    rewrite (post_summarize_proceeds w id user d _ Hdoc Hown Hfind Hchunks) in Hrun.
    destruct (summarize_loop_total (map (JS.join " ") gs) [] w) as (o & n & Hloop & Ho & _).
    rewrite Hloop in Hrun.
    destruct o as [sums | e |]; [| injection Hrun as <- <-; simpl in H200; lia | done].
    destruct (Summary.validate _); [| injection Hrun as <- <-; simpl in H200; lia].
    injection Hrun as <- <-.
    set (row := summary_row id user (JS.join " " sums) _).
    assert (Hrow : Summary.matches id user row = true).
    { unfold Summary.matches. simpl. by rewrite !N.eqb_refl. }
    split.
    + apply (post_summarize_existing _ id user d row); [done | done |].
      simpl. by apply find_app_new.
    + intros _. simpl. rewrite List.filter_app, (find_none_filter _ _ Hfind).
      simpl. by rewrite Hrow.
Qed.

(** C10. With a chunk size of at least one, [splitTextIntoChunks] ends
    with a non-empty list of chunks for every text, and with the single
    chunk [""] for the empty text.  So [POST /summarize] on an owned
    document whose text is empty, and that has no summary yet, calls the
    model exactly once, for the empty chunk; when that call answers, the
    route answers 200 with the summary of that one chunk and saves it as
    the content of the new row. *)
Theorem empty_text_is_one_chunk (text : string) (chunkSize : nat) (w : World)
    (id user : ObjectId) (d : Document.t) :
  (1 ≤ chunkSize)%nat →
  documents w !! id = Some d →
  Document.userId d = user →
  Document.text d = "" →
  List.find (Summary.matches id user) (summaries w) = None →
  (∃ chunks, splitTextIntoChunks text chunkSize = Some chunks ∧ chunks ≠ [])
  ∧ splitTextIntoChunks "" chunkSize = Some [""]
  ∧ ∃ resp w1 tail,
      post_summarize groq id user w = (Ok resp, w1)
      ∧ trace w1 = trace w ++ EGroq (summarize_request "") :: tail
      ∧ Forall (λ ev, ∀ request, ev ≠ EGroq request) tail
      ∧ ∀ s, summary_of (groq (trace w) (summarize_request "")) = Some s →
          resp = {| status := 200; body := JSummary s |}
          ∧ summaries w1 = summaries w ++ [summary_row id user s w].
Proof.
  intros Hsize Hdoc Hown Htext Hnone.
  assert (Hempty : ∀ n, (1 ≤ n)%nat → splitTextIntoChunks "" n = Some [""]).
  { intros [|n] Hn; [lia |].
    unfold splitTextIntoChunks. simpl. unfold JS.slice. simpl. by rewrite take_nil. }
  split; [| split; [by apply Hempty |]].
  - destruct (splitTextIntoChunks_grouped text chunkSize Hsize) as (gs & Hrun & Hgr).
    exists (map (JS.join " ") gs). split; [done |].
    eapply chunks_nonempty; [exact Hsize | exact Hrun].
  - rewrite (post_summarize_proceeds w id user d [""]) by (rewrite ?Htext; auto).
    rewrite summarize_loop_cons.
    change (chunk_request "") with (summarize_request "").
    destruct (groq (trace w) (summarize_request "")) as [e | choices].
    + eexists _, _, []. split; [done |]. split; [done |]. split; [by constructor | done].
    + rewrite summarize_loop_nil. simpl app.
      set (s := JS.or_else (first_choice_content choices) "Summary not available").
      change (JS.join " " [s]) with s.
      assert (Hvalid : ∀ w', Summary.validate (summary_row id user s w') = true).
      { intros w'. unfold Summary.validate, required. simpl.
        apply negb_true_iff, String.eqb_neq. by apply or_else_nonempty. }
      rewrite Hvalid.
      eexists _, _, [ESummarySave _]. split; [done |]. split.
      { simpl. by rewrite <- app_assoc. }
      split; [by repeat constructor |].
      intros s' [= <-]. done.
Qed.

(** *** Delete *)

Lemma filter_out_none {A} (f : A → bool) (l : list A) :
  Forall (λ x, f x = false) (List.filter (λ x, negb (f x)) l).
Proof.
  apply Forall_forall. intros x Hx. apply list_elem_of_In, List.filter_In in Hx.
  destruct Hx as [_ Hx]. by apply negb_true_iff in Hx.
Qed.

(** C7. [DELETE /documents/:id] by the owner removes, in this order, the
    Summary rows of the document and the caller, the QAHistory rows of the
    document and the caller, the stored file when there is one, and the
    document itself, and answers 200.  After it no Summary or QAHistory row
    is left for the pair, and [GET /summary] and [GET /qa-history] for the
    document answer 404, whoever asks. *)
Theorem delete_cascades (w : World) (id user caller : ObjectId) (d : Document.t) :
  documents w !! id = Some d →
  Document.userId d = user →
  let path := Document.filepath d in
  let w1 :=
    {| documents := delete id (documents w);
       summaries := List.filter (λ s, negb (Summary.matches id user s)) (summaries w);
       qaHistory := List.filter (λ q, negb (QAHistory.matches id user q)) (qaHistory w);
       files := delete path (files w);
       clock := clock w;
       trace := trace w
                ++ [ESummaryDeleteMany id user; EQAHistoryDeleteMany id user]
                ++ (if bool_decide (is_Some (files w !! path)) then [EUnlink path] else [])
                ++ [EDocumentDelete id] |} in
  delete_document id user w
    = (Ok {| status := 200;
             body := JMessage "Document and related data deleted successfully" |}, w1)
  ∧ Forall (λ s, Summary.matches id user s = false) (summaries w1)
  ∧ Forall (λ q, QAHistory.matches id user q = false) (qaHistory w1)
  ∧ get_summary id caller w1
    = (Ok {| status := 404; body := JMessage "Document not found" |}, w1)
  ∧ get_qa_history id caller w1
    = (Ok {| status := 404; body := JMessage "Document not found" |}, w1).
Proof.
  intros Hdoc Hown path w1. apply N.eqb_eq in Hown.
  split; [| split; [| split; [| split]]].
  - unfold_routes. rewrite Hdoc, Hown. simpl.
    unfold fs_existsSync, fs_unlinkSync, Document_findByIdAndDelete, emit. simpl.
    fold path. subst w1.
    destruct (files w !! path) as [content|] eqn:Hfile.
    + rewrite bool_decide_eq_true_2 by eauto. simpl. rewrite Hfile. simpl.
      do 2 f_equal. by rewrite <- !app_assoc.
    + rewrite bool_decide_eq_false_2 by (intros [? ?]; done). simpl.
      rewrite (delete_id _ _ Hfile). do 2 f_equal. by rewrite <- !app_assoc.
  - apply (filter_out_none (Summary.matches id user)).
  - apply (filter_out_none (QAHistory.matches id user)).
  - unfold_routes. simpl. by rewrite lookup_delete_eq.
  - unfold_routes. simpl. by rewrite lookup_delete_eq.
Qed.

(** *** Ask and its history *)

#[local] Instance newer_first_total : Total QAHistory.newer_first.
Proof. intros a b. unfold QAHistory.newer_first. lia. Qed.

#[local] Instance newer_first_trans : Transitive QAHistory.newer_first.
Proof. intros a b c. unfold QAHistory.newer_first. lia. Qed.

(** C8. An [/ask] call that answers 200 has added exactly one row at the
    end of the QAHistory collection, holding the submitted question and the
    answer it returned, whatever rows were there before; nothing is looked
    up to avoid a repeat.  [GET /qa-history] answers the owner with the
    rows of the document and the caller, newest first. *)
Theorem ask_appends_and_history_is_newest_first (w : World) (id user : ObjectId)
    (question : string) (d : Document.t) :
  documents w !! id = Some d →
  Document.userId d = user →
  (∀ resp w1,
      post_ask groq id question user w = (Ok resp, w1) →
      status resp = 200%Z →
      ∃ answer,
        body resp = JAnswer answer
        ∧ qaHistory w1
          = qaHistory w
            ++ [ {| QAHistory.documentId := id; QAHistory.userId := user;
                    QAHistory.question := question; QAHistory.answer := answer;
                    QAHistory.createdAt := clock w |} ])
  ∧ ∃ entries,
      get_qa_history id user w = (Ok {| status := 200; body := JQAHistory entries |}, w)
      ∧ entries ≡ₚ List.filter (QAHistory.matches id user) (qaHistory w)
      ∧ StronglySorted QAHistory.newer_first entries.
Proof.
  intros Hdoc Hown. apply N.eqb_eq in Hown. split.
  - intros resp w1. unfold_routes. rewrite Hdoc, Hown. simpl.
    unfold answerQuestion, try_catch, bind, groq_chat_completions_create, ret, throw.
    destruct (groq (trace w) _) as [e | choices]; simpl.
    + intros [= <- <-]. simpl. lia.
    + unfold QAHistory_save. simpl.
      destruct (QAHistory.validate _); simpl.
      * intros [= <- <-] _. eexists. split; [done | done].
      * intros [= <- <-]. simpl. lia.
  - eexists. split; [| split].
    + unfold_routes. rewrite Hdoc, Hown. simpl. reflexivity.
    + apply merge_sort_Permutation.
    + apply (StronglySorted_merge_sort _).
Qed.

End Properties.

(** ** Chunks of a text *)

Example whitespace_words_of_lines :
  spec_whitespace_words ("one" +:+ nl +:+ "two  three") = ["one"; "two"; "three"].
Proof. reflexivity. Qed.

Lemma grouped_two_and_a_rest {A} (n m : nat) (groups : list (list A)) (l : list A) :
  grouped n groups l → (0 < m ≤ n)%nat → length l = (n + n + m)%nat →
  map length groups = [n; n; m].
Proof.
  intros [Hcat Hsz] Hm Hlen. subst l.
  destruct groups as [|g0 [|g1 [|g2 [|g3 rest]]]]; simpl in Hlen;
    rewrite ?length_app in Hlen; simpl in Hlen.
  - lia.
  - destruct (Hsz 0%nat g0 eq_refl) as [H0 _]. lia.
  - destruct (Hsz 0%nat g0 eq_refl) as [_ H0], (Hsz 1%nat g1 eq_refl) as [H1 _].
    simpl in H0. lia.
  - destruct (Hsz 0%nat g0 eq_refl) as [_ H0], (Hsz 1%nat g1 eq_refl) as [_ H1],
      (Hsz 2%nat g2 eq_refl) as [H2 _].
    simpl in H0, H1. simpl. f_equal; [lia |]. f_equal; [lia |]. f_equal. lia.
  - destruct (Hsz 0%nat g0 eq_refl) as [_ H0], (Hsz 1%nat g1 eq_refl) as [_ H1],
      (Hsz 2%nat g2 eq_refl) as [_ H2], (Hsz 3%nat g3 eq_refl) as [H3 _].
    simpl in H0, H1, H2. lia.
Qed.

(** C3, as the code has it.  [splitTextIntoChunks] cuts the text at every
    single space character and at nothing else, and groups the pieces, in
    order, into groups of exactly [chunkSize] with only the last one
    possibly shorter; each chunk is its group joined by single spaces, so
    the pieces of a chunk are its group.  Joining the chunks by single
    spaces gives back the text.  A text of exactly 2500 pieces cut with
    chunk size 1000 gives three chunks of 1000, 1000 and 500 pieces. *)
Theorem chunks_group_the_space_separated_pieces (text : string) (chunkSize : nat) :
  (1 ≤ chunkSize)%nat →
  ∃ groups,
    splitTextIntoChunks text chunkSize = Some (map (JS.join " ") groups)
    ∧ grouped chunkSize groups (JS.split " " text)
    ∧ map (JS.split " ") (map (JS.join " ") groups) = groups
    ∧ JS.join " " (map (JS.join " ") groups) = text
    ∧ (chunkSize = 1000%nat → length (JS.split " " text) = 2500%nat →
       map length groups = [1000; 1000; 500]%nat).
Proof.
  intros Hsize.
  destruct (splitTextIntoChunks_grouped text chunkSize Hsize) as (gs & Hrun & Hgr).
  exists gs. split; [done |]. split; [done |].
  pose proof (grouped_members _ _ _ _ Hgr (split_free " " text)) as Hmem.
  split; [| split].
  - rewrite map_map. rewrite <- (map_id gs) at 2. apply map_ext_Forall.
    eapply Forall_impl; [exact Hmem |]. intros g [Hne Hfree]. by apply split_join.
  - rewrite join_join.
    + destruct Hgr as [-> _]. apply join_split.
    + eapply Forall_impl; [exact Hmem |]. by intros g [Hne _].
  - intros -> Hlen. apply (grouped_two_and_a_rest _ _ _ _ Hgr); [lia |].
    rewrite Hlen. reflexivity.
Qed.

(** C3, as the spec words it, fails: 2500 words that stand one per line
    hold no space, so they come back as a single chunk, not as three. *)
Lemma line_separated_words_are_one_chunk :
  length (spec_whitespace_words line_text) = 2500%nat
  ∧ splitTextIntoChunks line_text 1000 = Some [line_text].
Proof. split; vm_compute; reflexivity. Qed.

Lemma chunks_group_the_space_separated_pieces_witness :
  (1 ≤ 1000)%nat
  ∧ length (JS.split " " spaced_text) = 2500%nat
  ∧ ∃ groups,
      splitTextIntoChunks spaced_text 1000 = Some (map (JS.join " ") groups)
      ∧ JS.join " " (map (JS.join " ") groups) = spaced_text
      ∧ map length groups = [1000; 1000; 500]%nat.
Proof.
  assert (Hsize : (1 ≤ 1000)%nat) by lia.
  assert (Hlen : length (JS.split " " spaced_text) = 2500%nat) by (vm_compute; reflexivity).
  split; [exact Hsize |]. split; [exact Hlen |].
  destruct (chunks_group_the_space_separated_pieces spaced_text 1000 Hsize)
    as (groups & Hrun & _ & _ & Hjoin & Hcount).
  exists groups. split; [exact Hrun |]. split; [exact Hjoin |].
  exact (Hcount eq_refl Hlen).
Defined.

(** ** Upload *)

(** C9, as the code runs.  A part of type [image/png] is refused by the
    file filter of multer, which ends the request with an error before the
    handler is entered; with no error middleware installed Express answers
    500.  Nothing is written and no Document row is created.  The test in
    the handler would have answered 400, but it is never reached. *)
Theorem png_upload_is_answered_500 (pdf : string → option string) (uploadDir : string)
    (w : World) (user : ObjectId) (name : string) (bytes : Z) (data path : string) :
  post_upload pdf uploadDir (Some (png_upload name bytes data)) user w
    = (Ok {| status := 500; body := ErrorPage "Only PDF and text files are allowed" |}, w)
  ∧ upload_handler pdf
      (Some {| file_originalname := name; file_mimetype := "image/png";
               file_size := bytes; file_path := path |}) user w
    = (Ok {| status := 400; body := JMessage "Only PDF and text files are allowed" |}, w).
Proof. split; reflexivity. Qed.

(** ** The statements at sample inputs *)

Lemma foreign_caller_is_refused_witness :
  documents sample_world !! route_document (PostSummarize 1%N) = Some sample_document
  ∧ Document.userId sample_document ≠ 8%N
  ∧ ∃ message,
      handle numbering_groq 8%N (PostSummarize 1%N) sample_world
      = (Ok {| status := 403; body := JMessage message |}, sample_world).
Proof.
  assert (Hdoc : documents sample_world !! route_document (PostSummarize 1%N)
                 = Some sample_document) by reflexivity.
  assert (Hown : Document.userId sample_document ≠ 8%N) by (simpl; lia).
  split; [exact Hdoc |]. split; [exact Hown |].
  exact (foreign_caller_is_refused numbering_groq sample_world 8%N (PostSummarize 1%N)
           sample_document Hdoc Hown).
Defined.

Lemma summarize_is_idempotent_witness :
  let resp := {| status := 200; body := JSummary "part 0" |} in
  let w1 :=
    summary_saved (summary_row 1%N 7%N "part 0" sample_world)
      (after sample_world [EGroq (chunk_request "hello big world")]) in
  (List.find (Summary.matches 1%N 7%N) (summaries busy_world) = Some sample_summary
   ∧ post_summarize numbering_groq 1%N 7%N busy_world
     = (Ok {| status := 200; body := JSummary "A greeting." |}, busy_world))
  ∧ post_summarize numbering_groq 1%N 7%N sample_world = (Ok resp, w1)
  ∧ post_summarize numbering_groq 1%N 7%N w1 = (Ok resp, w1)
  ∧ length (List.filter (Summary.matches 1%N 7%N) (summaries w1)) = 1%nat.
Proof.
  intros resp w1.
  assert (Hfind : List.find (Summary.matches 1%N 7%N) (summaries busy_world)
                  = Some sample_summary) by reflexivity.
  assert (Hrun : post_summarize numbering_groq 1%N 7%N sample_world = (Ok resp, w1))
    by (vm_compute; reflexivity).
  destruct (summarize_is_idempotent numbering_groq busy_world 1%N 7%N) as [Hshort _].
  destruct (summarize_is_idempotent numbering_groq sample_world 1%N 7%N) as [_ Htwice].
  destruct (Htwice resp w1 Hrun eq_refl) as [Hagain Hone].
  split; [split; [exact Hfind |] |].
  - exact (Hshort sample_document sample_summary eq_refl eq_refl Hfind).
  - split; [exact Hrun |]. split; [exact Hagain |]. apply Hone. simpl. lia.
Defined.

Lemma truncation_before_upstream_call_witness :
  JS.length nine_thousand = 9000%Z
  ∧ ∃ sent,
      trace (summarizeText numbering_groq nine_thousand sample_world).2
      = trace sample_world ++ [EGroq (summarize_request sent)]
      ∧ JS.length sent = 8003%Z.
Proof.
  assert (Hlen : JS.length nine_thousand = 9000%Z) by (vm_compute; reflexivity).
  split; [exact Hlen |].
  destruct (truncation_before_upstream_call numbering_groq nine_thousand
              "hello big world" "Who is greeted?" sample_world)
    as [(sent & _ & Htrace & Hnine) _].
  exists sent. split; [exact Htrace | exact (Hnine Hlen)].
Defined.

Lemma combined_summary_is_joined_chunk_summaries_witness :
  documents long_world !! 2%N = Some long_document
  ∧ List.find (Summary.matches 2%N 7%N) (summaries long_world) = None
  ∧ splitTextIntoChunks (Document.text long_document) 1000 = Some long_chunks
  ∧ Forall2 (λ reply s, summary_of reply = Some s)
      (replies numbering_groq (trace long_world) (map chunk_request long_chunks))
      ["part 0"; "part 1"]
  ∧ post_summarize numbering_groq 2%N 7%N long_world
    = (Ok {| status := 200; body := JSummary "part 0 part 1" |},
       summary_saved (summary_row 2%N 7%N "part 0 part 1" long_world)
         (after long_world (map (λ c, EGroq (chunk_request c)) long_chunks))).
Proof.
  assert (Hdoc : documents long_world !! 2%N = Some long_document) by reflexivity.
  assert (Hnone : List.find (Summary.matches 2%N 7%N) (summaries long_world) = None)
    by reflexivity.
  assert (Hchunks : splitTextIntoChunks (Document.text long_document) 1000 = Some long_chunks)
    by (vm_compute; reflexivity).
  assert (Hall : Forall2 (λ reply s, summary_of reply = Some s)
                   (replies numbering_groq (trace long_world) (map chunk_request long_chunks))
                   ["part 0"; "part 1"])
    by (repeat constructor).
  split; [exact Hdoc |]. split; [exact Hnone |]. split; [exact Hchunks |].
  split; [exact Hall |].
  exact (combined_summary_is_joined_chunk_summaries numbering_groq long_world 2%N 7%N
           long_document long_chunks ["part 0"; "part 1"] Hdoc eq_refl Hnone Hchunks Hall).
Defined.

Lemma failed_chunk_aborts_summarize_witness :
  let w1 := after long_world (map (λ c, EGroq (chunk_request c)) long_chunks) in
  documents long_world !! 2%N = Some long_document
  ∧ splitTextIntoChunks (Document.text long_document) 1000 = Some long_chunks
  ∧ replies flaky_groq (trace long_world) (map chunk_request long_chunks) !! 1%nat
    = Some (GroqError "429 Too Many Requests")
  ∧ post_summarize flaky_groq 2%N 7%N long_world
    = (Ok {| status := 500; body := JMessage "Summarization failed" |}, w1)
  ∧ summaries w1 = summaries long_world
  ∧ ∃ resp w2,
      post_summarize flaky_groq 2%N 7%N w1 = (Ok resp, w2)
      ∧ trace w2 !! length (trace w1)
        = Some (EGroq (chunk_request (JS.join " " (replicate 1000 "w")))).
Proof.
  intros w1.
  assert (Hdoc : documents long_world !! 2%N = Some long_document) by reflexivity.
  assert (Hnone : List.find (Summary.matches 2%N 7%N) (summaries long_world) = None)
    by reflexivity.
  assert (Hchunks : splitTextIntoChunks (Document.text long_document) 1000 = Some long_chunks)
    by (vm_compute; reflexivity).
  assert (Hfail : replies flaky_groq (trace long_world) (map chunk_request long_chunks) !! 1%nat
                  = Some (GroqError "429 Too Many Requests")) by reflexivity.
  assert (Hbefore : ∀ j reply, (j < 1)%nat →
            replies flaky_groq (trace long_world) (map chunk_request long_chunks) !! j
            = Some reply → is_Some (summary_of reply)).
  { intros [|j] reply Hj; [| lia]. intros [= <-]. by eexists. }
  destruct (failed_chunk_aborts_summarize flaky_groq long_world 2%N 7%N long_document
              long_chunks 1 "429 Too Many Requests" Hdoc eq_refl Hnone Hchunks Hfail Hbefore)
    as (Hrun & (_ & Hsame & _) & first & resp & w2 & Hfirst & Hnext & Hstart).
  split; [exact Hdoc |]. split; [exact Hchunks |]. split; [exact Hfail |].
  split; [exact Hrun |]. split; [exact Hsame |].
  exists resp, w2. split; [exact Hnext |].
  injection Hfirst as <-. exact Hstart.
Defined.

Lemma delete_cascades_witness :
  documents busy_world !! 1%N = Some sample_document
  ∧ (∃ w1,
      delete_document 1%N 7%N busy_world
      = (Ok {| status := 200;
               body := JMessage "Document and related data deleted successfully" |}, w1)
      ∧ trace w1 = [ESummaryDeleteMany 1%N 7%N; EQAHistoryDeleteMany 1%N 7%N;
                    EUnlink "/srv/uploads/1700000000000-notes.txt"; EDocumentDelete 1%N]
      ∧ summaries w1 = [] ∧ qaHistory w1 = []
      ∧ get_summary 1%N 7%N w1
        = (Ok {| status := 404; body := JMessage "Document not found" |}, w1)
      ∧ get_qa_history 1%N 7%N w1
        = (Ok {| status := 404; body := JMessage "Document not found" |}, w1)).
Proof.
  assert (Hdoc : documents busy_world !! 1%N = Some sample_document) by reflexivity.
  split; [exact Hdoc |].
  destruct (delete_cascades busy_world 1%N 7%N 7%N sample_document Hdoc eq_refl)
    as (Hrun & _ & _ & Hsummary & Hhistory).
  eexists. split; [exact Hrun |]. split; [reflexivity |]. split; [reflexivity |].
  split; [reflexivity |]. split; [exact Hsummary | exact Hhistory].
Defined.

Lemma ask_appends_and_history_is_newest_first_witness :
  let resp := {| status := 200; body := JAnswer "The world." |} in
  let w1 :=
    {| documents := documents busy_world; summaries := summaries busy_world;
       qaHistory := [sample_entry 1700000002000%Z; sample_entry 1700000003000%Z;
                     sample_entry 1700000005000%Z];
       files := files busy_world; clock := clock busy_world;
       trace := [EGroq (answer_request "hello big world" "Who is greeted?");
                 EQAHistorySave (sample_entry 1700000005000%Z)] |} in
  documents busy_world !! 1%N = Some sample_document
  ∧ post_ask (steady_groq "The world.") 1%N "Who is greeted?" 7%N busy_world = (Ok resp, w1)
  ∧ qaHistory w1 = qaHistory busy_world ++ [sample_entry 1700000005000%Z]
  ∧ ∃ entries,
      get_qa_history 1%N 7%N w1 = (Ok {| status := 200; body := JQAHistory entries |}, w1)
      ∧ StronglySorted QAHistory.newer_first entries.
Proof.
  intros resp w1.
  assert (Hdoc : documents busy_world !! 1%N = Some sample_document) by reflexivity.
  assert (Hrun : post_ask (steady_groq "The world.") 1%N "Who is greeted?" 7%N busy_world
                 = (Ok resp, w1)) by (vm_compute; reflexivity).
  destruct (ask_appends_and_history_is_newest_first (steady_groq "The world.") busy_world
              1%N 7%N "Who is greeted?" sample_document Hdoc eq_refl) as [Hask _].
  destruct (Hask resp w1 Hrun eq_refl) as (answer & Hbody & Hrows).
  injection Hbody as <-.
  destruct (ask_appends_and_history_is_newest_first (steady_groq "The world.") w1
              1%N 7%N "Who is greeted?" sample_document Hdoc eq_refl)
    as [_ (entries & Hget & _ & Hsorted)].
  split; [exact Hdoc |]. split; [exact Hrun |]. split; [exact Hrows |].
  exists entries. split; [exact Hget | exact Hsorted].
Defined.

Lemma empty_text_is_one_chunk_witness :
  (1 ≤ 2)%nat
  ∧ documents blank_world !! 3%N = Some blank_document
  ∧ Document.text blank_document = ""
  ∧ (∃ chunks, splitTextIntoChunks "hello big world" 2 = Some chunks ∧ chunks ≠ [])
  ∧ splitTextIntoChunks "" 2 = Some [""]
  ∧ ∃ resp w1 tail,
      post_summarize numbering_groq 3%N 7%N blank_world = (Ok resp, w1)
      ∧ trace w1 = trace blank_world ++ EGroq (summarize_request "") :: tail
      ∧ Forall (λ ev, ∀ request, ev ≠ EGroq request) tail
      ∧ resp = {| status := 200; body := JSummary "part 0" |}
      ∧ summaries w1 = [summary_row 3%N 7%N "part 0" blank_world].
Proof.
  assert (Hsize : (1 ≤ 2)%nat) by lia.
  assert (Hdoc : documents blank_world !! 3%N = Some blank_document) by reflexivity.
  destruct (empty_text_is_one_chunk numbering_groq "hello big world" 2 blank_world 3%N 7%N
              blank_document Hsize Hdoc eq_refl eq_refl eq_refl)
    as (Hsome & Hblank & resp & w1 & tail & Hrun & Htrace & Hcalls & Hsaved).
  destruct (Hsaved "part 0" eq_refl) as [Hresp Hrows].
  split; [exact Hsize |]. split; [exact Hdoc |]. split; [reflexivity |].
  split; [exact Hsome |]. split; [exact Hblank |].
  exists resp, w1, tail. split; [exact Hrun |]. split; [exact Htrace |].
  split; [exact Hcalls |]. split; [exact Hresp | exact Hrows].
Defined.

(** * Further properties of the code *)

(** ** Chunk sizes and counts *)


Lemma grouped_tail {A} (n : nat) (g : list A) (gs : list (list A)) (l : list A) :
  grouped n (g :: gs) l → grouped n gs (concat gs).
Proof.
  intros [_ Hsz]. split; [done |]. intros k g' Hk.
  destruct (Hsz (S k) g' Hk) as [Hlen Hfull]. split; [done |].
  intros Hmore. apply Hfull. simpl. lia.
Qed.

Lemma grouped_count {A} (n : nat) (gs : list (list A)) :
  ∀ l : list A, (1 ≤ n)%nat → grouped n gs l →
    length gs = ((length l + n - 1) / n)%nat.
Proof.
  induction gs as [|g gs IH]; intros l Hn Hgr.
  - destruct Hgr as [<- _]. simpl. symmetry. apply Nat.div_small. lia.
  - pose proof (grouped_tail _ _ _ _ Hgr) as Htail.
    specialize (IH _ Hn Htail). destruct Hgr as [<- Hsz].
    destruct (Hsz 0%nat g eq_refl) as [Hlen Hfull]. simpl in Hfull.
    simpl. rewrite length_app.
    destruct gs as [|g' gs].
    + simpl. rewrite Nat.add_0_r.
      apply (Nat.div_unique _ _ _ (length g - 1)); lia.
    + rewrite Hfull by (simpl; lia). rewrite IH.
      replace (n + length (concat (g' :: gs)) + n - 1)%nat
        with (1 * n + (length (concat (g' :: gs)) + n - 1))%nat by lia.
      rewrite Nat.div_add_l by lia. lia.
Qed.

(** X2. For a chunk size of at least one, the number of chunks is the
    number of space-separated pieces of the text divided by the chunk size,
    rounded up. *)
Theorem chunk_count_is_rounded_up_quotient (text : string) (chunkSize : nat) :
  (1 ≤ chunkSize)%nat →
  ∃ chunks,
    splitTextIntoChunks text chunkSize = Some chunks
    ∧ length chunks = ((length (JS.split " " text) + chunkSize - 1) / chunkSize)%nat.
Proof.
  intros Hsize.
  destruct (splitTextIntoChunks_grouped text chunkSize Hsize) as (gs & Hrun & Hgr).
  exists (map (JS.join " ") gs). split; [done |].
  rewrite length_map. by apply grouped_count.
Qed.

(** X3. A text with no more pieces than the chunk size is a single chunk,
    and that chunk is the text itself, spaces included. *)
Theorem short_text_is_its_own_chunk (text : string) (chunkSize : nat) :
  (1 ≤ chunkSize)%nat →
  (length (JS.split " " text) ≤ chunkSize)%nat →
  splitTextIntoChunks text chunkSize = Some [text].
Proof.
  intros Hsize Hshort.
  destruct (splitTextIntoChunks_grouped text chunkSize Hsize) as (gs & Hrun & Hgr).
  pose proof (grouped_count _ _ _ Hsize Hgr) as Hcount.
  pose proof (split_nonempty " " text) as Hne.
  assert (Hone : length gs = 1%nat).
  { rewrite Hcount. symmetry.
    apply (Nat.div_unique _ _ _ (length (JS.split " " text) - 1));
      destruct (JS.split " " text); simpl in *; (done || lia). }
  destruct gs as [|g [|g' gs]]; simpl in Hone; try lia.
  destruct Hgr as [Hcat _]. simpl in Hcat. rewrite app_nil_r in Hcat. subst g.
  rewrite Hrun. simpl. by rewrite join_split.
Qed.

Lemma short_text_is_its_own_chunk_witness :
  (1 ≤ 1000)%nat
  ∧ (length (JS.split " " "hello big world") ≤ 1000)%nat
  ∧ splitTextIntoChunks "hello big world" 1000 = Some ["hello big world"].
Proof.
  assert (Hsize : (1 ≤ 1000)%nat) by lia.
  assert (Hshort : (length (JS.split " " "hello big world") ≤ 1000)%nat) by (simpl; lia).
  split; [exact Hsize |]. split; [exact Hshort |].
  exact (short_text_is_its_own_chunk "hello big world" 1000 Hsize Hshort).
Defined.

Lemma chunk_count_is_rounded_up_quotient_witness :
  (1 ≤ 1000)%nat
  ∧ ∃ chunks,
      splitTextIntoChunks (Document.text long_document) 1000 = Some chunks
      ∧ length chunks = 2%nat.
Proof.
  assert (Hsize : (1 ≤ 1000)%nat) by lia.
  split; [exact Hsize |].
  destruct (chunk_count_is_rounded_up_quotient (Document.text long_document) 1000 Hsize)
    as (chunks & Hrun & Hcount).
  exists chunks. split; [exact Hrun |]. rewrite Hcount. vm_compute. reflexivity.
Defined.

(** ** What is sent to the model and what comes back *)

Section MoreProperties.

Variable groq : list Event → ChatRequest → GroqResult.

Ltac unfold_handlers :=
  unfold handle, get_documents, get_document, delete_document, get_summary,
    post_summarize, post_ask, get_qa_history, aiOperationsLimiter, try_catch, bind,
    res, ret, throw, Document_findById, Summary_findOne, Document_find_sorted,
    QAHistory_find_sorted.

Lemma context_text_truncated (context : string) :
  truncated 12000 context (context_text context).
Proof.
  unfold truncated, context_text.
  destruct (Z.gtb_spec (JS.length context) 12000) as [Hgt | Hle]; split; try lia; try done.
  intros _. destruct (js_substring_prefix context 12000) as (rest & Heq & Hlen); [lia |].
  by exists (JS.substring context 0 12000), rest.
Qed.

Lemma truncated_length (maxLength : Z) (text sent : string) :
  truncated maxLength text sent → (JS.length sent ≤ maxLength + 3)%Z.
Proof.
  intros [Hshort Hlong].
  destruct (Z_le_gt_dec (JS.length text) maxLength) as [Hle | Hgt].
  - rewrite (Hshort Hle). lia.
  - destruct (Hlong Hgt) as (kept & dropped & _ & Hkept & ->).
    unfold JS.length in *. rewrite string_length_app. simpl. lia.
Qed.

Lemma answerQuestion_run (context question : string) (w : World) :
  answerQuestion groq context question w =
    match groq (trace w) (answer_request (context_text context) question) with
    | GroqError e =>
        (Throw ("Q&A failed: " +:+ e),
         after w [EGroq (answer_request (context_text context) question)])
    | GroqCompletion choices =>
        (Ok (JS.or_else (first_choice_content choices) "Answer not available"),
         after w [EGroq (answer_request (context_text context) question)])
    end.
Proof.
  unfold answerQuestion, try_catch, bind, groq_chat_completions_create, context_text, ret, throw.
  by destruct (groq _ _).
Qed.

(** X4. Whatever the length of the chunk or of the document, the text put
    in a summarization request has at most 8003 characters and the context
    put in a question request at most 12003. *)
Theorem request_text_is_bounded (text context question : string) (w : World) :
  (∃ sent,
      trace (summarizeText groq text w).2 = trace w ++ [EGroq (summarize_request sent)]
      ∧ (JS.length sent ≤ 8003)%Z)
  ∧ (∃ sent,
      trace (answerQuestion groq context question w).2
      = trace w ++ [EGroq (answer_request sent question)]
      ∧ (JS.length sent ≤ 12003)%Z).
Proof.
  split.
  - exists (chunk_text text). split.
    + rewrite summarizeText_run. by destruct (groq _ _).
    + apply (truncated_length 8000 text). apply chunk_text_truncated.
  - exists (context_text context). split.
    + rewrite answerQuestion_run. by destruct (groq _ _).
    + apply (truncated_length 12000 context). apply context_text_truncated.
Qed.

(** X5. [summarizeText] and [answerQuestion] never return the empty
    string: a completion with no choice, with no content, or with empty
    content is replaced by "Summary not available", respectively "Answer
    not available". *)
Theorem blank_completion_gives_the_fallback (text context question : string) (w : World)
    (choices : list (option string)) :
  first_choice_content choices = None ∨ first_choice_content choices = Some "" →
  (∀ s w', summarizeText groq text w = (Ok s, w') → s ≠ "")
  ∧ (∀ a w', answerQuestion groq context question w = (Ok a, w') → a ≠ "")
  ∧ (groq (trace w) (chunk_request text) = GroqCompletion choices →
     (summarizeText groq text w).1 = Ok "Summary not available")
  ∧ (groq (trace w) (answer_request (context_text context) question) = GroqCompletion choices →
     (answerQuestion groq context question w).1 = Ok "Answer not available").
Proof.
  intros Hblank. split; [| split; [| split]].
  - intros s w'. rewrite summarizeText_run.
    destruct (groq _ _); [done |]. intros [= <- _]. by apply or_else_nonempty.
  - intros a w'. rewrite answerQuestion_run.
    destruct (groq _ _); [done |]. intros [= <- _]. by apply or_else_nonempty.
  - intros Hreply. rewrite summarizeText_run. fold (chunk_request text). rewrite Hreply.
    simpl. by destruct Hblank as [-> | ->].
  - intros Hreply. rewrite answerQuestion_run, Hreply. simpl.
    by destruct Hblank as [-> | ->].
Qed.

(** ** Answers of the document routes *)

Lemma handle_missing (w : World) (user : ObjectId) (r : Route) :
  documents w !! route_document r = None →
  handle groq user r w = (Ok {| status := 404; body := JMessage "Document not found" |}, w).
Proof.
  intros Hdoc. destruct r; simpl in Hdoc; unfold_handlers; by rewrite Hdoc.
Qed.

(** X6. For an id under which no document is stored, each of the six
    document routes answers 404 "Document not found" and changes
    nothing. *)
Theorem missing_document_is_not_found (w : World) (user : ObjectId) (r : Route) :
  documents w !! route_document r = None →
  handle groq user r w = (Ok {| status := 404; body := JMessage "Document not found" |}, w).
Proof. apply handle_missing. Qed.

Lemma post_ask_owner (w : World) (id user : ObjectId) (question : string) (d : Document.t) :
  documents w !! id = Some d →
  Document.userId d = user →
  let request := answer_request (context_text (Document.text d)) question in
  post_ask groq id question user w =
    match groq (trace w) request with
    | GroqError e => (Ok {| status := 500; body := JMessage "Q&A failed" |}, after w [EGroq request])
    | GroqCompletion choices =>
        let answer := JS.or_else (first_choice_content choices) "Answer not available" in
        let row := {| QAHistory.documentId := id; QAHistory.userId := user;
                      QAHistory.question := question; QAHistory.answer := answer;
                      QAHistory.createdAt := clock w |} in
        if required question
        then (Ok {| status := 200; body := JAnswer answer |},
              {| documents := documents w; summaries := summaries w;
                 qaHistory := qaHistory w ++ [row]; files := files w; clock := clock w;
                 trace := trace w ++ [EGroq request; EQAHistorySave row] |})
        else (Ok {| status := 500; body := JMessage "Q&A failed" |}, after w [EGroq request])
    end.
Proof.
  intros Hdoc Hown request. apply N.eqb_eq in Hown.
  unfold post_ask, aiOperationsLimiter, try_catch.
  unfold bind at 1. unfold Document_findById. rewrite Hdoc, Hown.
  change (negb true) with false. cbv iota.
  unfold bind at 1. rewrite answerQuestion_run. fold request.
  destruct (groq (trace w) request) as [e | choices]; [done |].
  unfold bind, QAHistory_new, QAHistory_save, res, ret, QAHistory.validate. simpl.
  assert (Hans : required (JS.or_else (first_choice_content choices) "Answer not available")
                 = true).
  { unfold required. apply negb_true_iff, String.eqb_neq. by apply or_else_nonempty. }
  rewrite Hans, andb_true_r.
  destruct (required question); [| done].
  unfold emit, after. simpl. by rewrite <- app_assoc.
Qed.

Lemma splitTextIntoChunks_1000 (text : string) :
  ∃ chunks, splitTextIntoChunks text 1000 = Some chunks ∧ chunks ≠ [].
Proof.
  destruct (splitTextIntoChunks_grouped text 1000) as (gs & Hrun & _); [lia |].
  exists (map (JS.join " ") gs). split; [done |].
  eapply chunks_nonempty; [| exact Hrun]. lia.
Qed.

(** X7. Every document route ends with a response, whatever the stored
    data and whatever the model does: nothing is thrown out of a handler
    and no loop runs on, and the status is one of 200, 403, 404, 500. *)
Theorem document_routes_always_answer (w : World) (user : ObjectId) (r : Route) :
  ∃ resp w',
    handle groq user r w = (Ok resp, w')
    ∧ (status resp = 200 ∨ status resp = 403 ∨ status resp = 404 ∨ status resp = 500)%Z.
Proof.
  destruct (documents w !! route_document r) as [d|] eqn:Hdoc;
    [| rewrite handle_missing by done; eexists _, _; split; [done |];
       simpl; lia].
  destruct (decide (Document.userId d = user)) as [Hown | Hown];
    [| apply N.eqb_neq in Hown; destruct r; simpl in Hdoc; unfold_handlers;
       rewrite Hdoc, Hown; simpl; eexists _, _; (split; [done |]); simpl; lia].
  destruct r as [id | id | id | id | id question | id]; simpl in Hdoc; simpl handle.
  - apply N.eqb_eq in Hown. unfold_handlers. rewrite Hdoc, Hown. simpl.
    eexists _, _. split; [done |]. simpl. lia.
  - apply N.eqb_eq in Hown. unfold_handlers. rewrite Hdoc, Hown. simpl.
    unfold fs_existsSync, fs_unlinkSync, Document_findByIdAndDelete. simpl.
    destruct (files w !! Document.filepath d) eqn:Hfile.
    + rewrite bool_decide_eq_true_2 by eauto. simpl. rewrite Hfile. simpl.
      eexists _, _. split; [done |]. simpl. lia.
    + rewrite bool_decide_eq_false_2 by (intros [? ?]; done). simpl.
      eexists _, _. split; [done |]. simpl. lia.
  - apply N.eqb_eq in Hown. unfold_handlers. rewrite Hdoc, Hown. simpl.
    destruct (List.find _ _); eexists _, _; (split; [done |]); simpl; lia.
  - destruct (List.find (Summary.matches id user) (summaries w)) as [s|] eqn:Hfind.
    + rewrite (post_summarize_existing groq w id user d s) by done.
      eexists _, _. split; [done |]. simpl. lia.
    + destruct (splitTextIntoChunks_1000 (Document.text d)) as (chunks & Hchunks & _).
      rewrite (post_summarize_proceeds groq w id user d chunks) by done.
      destruct (summarize_loop_total groq chunks [] w) as (o & n & Hloop & Ho & _).
      rewrite Hloop. destruct o as [sums | e |]; [| | done].
      * destruct (Summary.validate _); eexists _, _; (split; [done |]); simpl; lia.
      * eexists _, _. split; [done |]. simpl. lia.
  - rewrite (post_ask_owner w id user question d) by done. simpl.
    destruct (groq _ _); [| destruct (required question)];
      eexists _, _; (split; [done |]); simpl; lia.
  - apply N.eqb_eq in Hown. unfold_handlers. rewrite Hdoc, Hown. simpl.
    eexists _, _. split; [done |]. simpl. lia.
Qed.

(** X8. The four reading routes (the list, one document, its summary, its
    question history) give back the world they were given: no collection,
    no file and no trace entry changes, and the model is not called. *)
Theorem reading_routes_change_nothing (w : World) (user id : ObjectId) :
  (get_documents user w).2 = w
  ∧ (get_document id user w).2 = w
  ∧ (get_summary id user w).2 = w
  ∧ (get_qa_history id user w).2 = w.
Proof.
  repeat split; unfold_handlers; simpl;
    destruct (documents w !! id) as [d|]; simpl; try done;
    destruct (Document.userId d =? user)%N; simpl; try done.
  by destruct (List.find _ _).
Qed.

#[local] Instance latest_first_total : Total Document.latest_first.
Proof. intros a b. unfold Document.latest_first. lia. Qed.

#[local] Instance latest_first_trans : Transitive Document.latest_first.
Proof. intros a b c. unfold Document.latest_first. lia. Qed.

(** X9. [GET /documents] answers 200 with exactly the stored documents
    whose owner is the caller, each once, the latest upload first. *)
Theorem listing_is_the_callers_documents (w : World) (user : ObjectId) :
  ∃ rows,
    get_documents user w = (Ok {| status := 200; body := JDocuments rows |}, w)
    ∧ (∀ id d, (id, d) ∈ rows ↔ documents w !! id = Some d ∧ Document.userId d = user)
    ∧ NoDup rows
    ∧ StronglySorted Document.latest_first rows.
Proof.
  eexists. split; [reflexivity |].
  set (own := List.filter (λ row : ObjectId * Document.t,
                             N.eqb (Document.userId row.2) user)
                (map_to_list (documents w))).
  assert (Hown : ∀ id d, (id, d) ∈ own ↔ documents w !! id = Some d ∧ Document.userId d = user).
  { intros id d. unfold own. rewrite list_elem_of_In, List.filter_In, <- list_elem_of_In.
    rewrite elem_of_map_to_list. simpl. by rewrite N.eqb_eq. }
  split; [| split].
  - intros id d. rewrite <- Hown. by rewrite merge_sort_Permutation.
  - rewrite merge_sort_Permutation. unfold own.
    apply NoDup_ListNoDup, List.NoDup_filter, NoDup_ListNoDup, NoDup_map_to_list.
  - apply (StronglySorted_merge_sort _).
Qed.

(** The answers to a run of requests are all completions, or there is a
    first error among them. *)
Lemma replies_all_or_first_error (rs : list GroqResult) :
  (∃ sums, Forall2 (λ reply s, summary_of reply = Some s) rs sums)
  ∨ (∃ k e, rs !! k = Some (GroqError e)
            ∧ ∀ j reply, (j < k)%nat → rs !! j = Some reply → is_Some (summary_of reply)).
Proof.
  induction rs as [|r rs IH].
  - left. exists []. constructor.
  - destruct r as [e | choices].
    + right. exists 0%nat, e. split; [done |]. intros j reply Hj. lia.
    + destruct IH as [(sums & Hall) | (k & e & Hk & Hbefore)].
      * left. eexists (_ :: sums). by constructor.
      * right. exists (S k), e. split; [done |].
        intros [|j] reply Hj Hlook; simpl in Hlook.
        -- injection Hlook as <-. by eexists.
        -- apply (Hbefore j); [lia | done].
Qed.

Lemma post_summarize_all_answered (w : World) (id user : ObjectId) (d : Document.t)
    (chunks sums : list string) :
  documents w !! id = Some d →
  Document.userId d = user →
  List.find (Summary.matches id user) (summaries w) = None →
  splitTextIntoChunks (Document.text d) 1000 = Some chunks →
  Forall2 (λ reply s, summary_of reply = Some s)
    (replies groq (trace w) (map chunk_request chunks)) sums →
  JS.join " " sums ≠ ""
  ∧ post_summarize groq id user w =
      (Ok {| status := 200; body := JSummary (JS.join " " sums) |},
       summary_saved (summary_row id user (JS.join " " sums) w)
         (after w (map (λ c, EGroq (chunk_request c)) chunks))).
Proof.
  intros Hdoc Hown Hnone Hchunks Hall.
  assert (Hne : chunks ≠ []) by (eapply chunks_nonempty; [| exact Hchunks]; lia).
  assert (Hjoin : JS.join " " sums ≠ "").
  { destruct chunks as [|c chunks]; [done |]. simpl in Hall.
    inversion Hall as [|reply s rs sums' Hs Hrest]; subst.
    apply join_nonempty. by eapply summary_of_nonempty. }
  split; [exact Hjoin |].
  rewrite (post_summarize_proceeds groq w id user d chunks) by done.
  rewrite (summarize_loop_ok groq chunks [] w sums Hall). simpl app.
  assert (Hvalid : Summary.validate
            (summary_row id user (JS.join " " sums)
               (after w (map (λ c, EGroq (chunk_request c)) chunks))) = true).
  { unfold Summary.validate, required. simpl.
    by apply negb_true_iff, String.eqb_neq. }
  by rewrite Hvalid.
Qed.

Lemma Forall2_summary_no_error (rs : list GroqResult) (sums : list string) :
  Forall2 (λ reply s, summary_of reply = Some s) rs sums →
  ¬ Exists (λ reply, summary_of reply = None) rs.
Proof.
  induction 1 as [|r s rs sums Hs _ IH]; intros Hex; inversion Hex; subst.
  - congruence.
  - by apply IH.
Qed.

(** X10. For the owner of a document without a summary, [POST /summarize]
    answers 200 or 500, and 500 exactly when one of the calls it makes to
    the model is answered by an error: a blank completion and the
    validation of the new row never make it fail. *)
Theorem summarize_fails_only_with_the_model (w : World) (id user : ObjectId)
    (d : Document.t) (chunks : list string) :
  documents w !! id = Some d →
  Document.userId d = user →
  List.find (Summary.matches id user) (summaries w) = None →
  splitTextIntoChunks (Document.text d) 1000 = Some chunks →
  ∃ resp w1,
    post_summarize groq id user w = (Ok resp, w1)
    ∧ (status resp = 200 ∨ status resp = 500)%Z
    ∧ (status resp = 500%Z
       ↔ Exists (λ reply, summary_of reply = None)
           (replies groq (trace w) (map chunk_request chunks))).
Proof.
  intros Hdoc Hown Hnone Hchunks.
  destruct (replies_all_or_first_error (replies groq (trace w) (map chunk_request chunks)))
    as [(sums & Hall) | (k & e & Hk & Hbefore)].
  - destruct (post_summarize_all_answered w id user d chunks sums) as [_ Hrun]; try done.
    eexists _, _. split; [exact Hrun |]. split; [left; done |]. split.
    + simpl. lia.
    + intros Hex. by apply Forall2_summary_no_error in Hall.
  - eexists _, _. split.
    + rewrite (post_summarize_proceeds groq w id user d chunks) by done.
      by rewrite (summarize_loop_fails groq chunks [] w k e Hk Hbefore).
    + split; [right; done |]. split; [| done]. intros _.
      apply Exists_exists. exists (GroqError e). split; [| done].
      by eapply list_elem_of_lookup_2.
Qed.

(** X11. When [POST /summarize] has answered 200 with a summary, [GET
    /summary] for the same document and caller answers 200 with the same
    text, and changes nothing. *)
Theorem summary_is_served_after_summarize (w w1 : World) (id user : ObjectId)
    (resp : Response) :
  post_summarize groq id user w = (Ok resp, w1) →
  status resp = 200%Z →
  ∃ text created,
    body resp = JSummary text
    ∧ get_summary id user w1
      = (Ok {| status := 200; body := JSummaryCreated text created |}, w1).
Proof.
  intros Hrun H200.
  destruct (documents w !! id) as [d|] eqn:Hdoc;
    [| rewrite post_summarize_missing in Hrun by done;
       injection Hrun as <- <-; simpl in H200; lia].
  destruct (decide (Document.userId d = user)) as [Hown | Hown];
    [| rewrite (post_summarize_foreign groq w id user d) in Hrun by done;
       injection Hrun as <- <-; simpl in H200; lia].
  assert (Hserve : ∀ w' s,
            documents w' !! id = Some d →
            List.find (Summary.matches id user) (summaries w') = Some s →
            get_summary id user w'
            = (Ok {| status := 200;
                     body := JSummaryCreated (Summary.content s) (Summary.createdAt s) |},
               w')).
  { intros w' s Hd Hs. pose proof Hown as Heq. apply N.eqb_eq in Heq.
    unfold_handlers. rewrite Hd, Heq. simpl. by rewrite Hs. }
  destruct (List.find (Summary.matches id user) (summaries w)) as [s|] eqn:Hfind.
  - rewrite (post_summarize_existing groq w id user d s) in Hrun by done.
    injection Hrun as <- <-. exists (Summary.content s), (Summary.createdAt s).
    split; [done |]. by apply Hserve.
  - destruct (splitTextIntoChunks_1000 (Document.text d)) as (chunks & Hchunks & _).
    destruct (replies_all_or_first_error (replies groq (trace w) (map chunk_request chunks)))
      as [(sums & Hall) | (k & e & Hk & Hbefore)].
    + destruct (post_summarize_all_answered w id user d chunks sums) as [_ Hok]; try done.
      rewrite Hok in Hrun. injection Hrun as <- <-.
      exists (JS.join " " sums), (clock w). split; [done |].
      apply (Hserve _ (summary_row id user (JS.join " " sums) w)); [done |].
      simpl. apply find_app_new; [done |].
      unfold Summary.matches. simpl. by rewrite !N.eqb_refl.
    + rewrite (post_summarize_proceeds groq w id user d chunks) in Hrun by done.
      rewrite (summarize_loop_fails groq chunks [] w k e Hk Hbefore) in Hrun.
      injection Hrun as <- <-. simpl in H200. lia.
Qed.

(** X12. For the owner of a document, [POST /ask] calls the model exactly
    once, also when the question is empty.  It answers 200 exactly when
    the model answered and the question is not empty; otherwise it answers
    500 "Q&A failed" and no collection has changed. *)
Theorem ask_succeeds_or_stores_nothing (w : World) (id user : ObjectId)
    (question : string) (d : Document.t) :
  documents w !! id = Some d →
  Document.userId d = user →
  let request := answer_request (context_text (Document.text d)) question in
  ∃ resp w1 tail,
    post_ask groq id question user w = (Ok resp, w1)
    ∧ trace w1 = trace w ++ EGroq request :: tail
    ∧ Forall (λ ev, ∀ r, ev ≠ EGroq r) tail
    ∧ (status resp = 200%Z
       ↔ (∃ choices, groq (trace w) request = GroqCompletion choices) ∧ question ≠ "")
    ∧ (status resp ≠ 200%Z →
       resp = {| status := 500; body := JMessage "Q&A failed" |}
       ∧ w1 = after w [EGroq request]).
Proof.
  intros Hdoc Hown request.
  rewrite (post_ask_owner w id user question d Hdoc Hown). fold request.
  destruct (groq (trace w) request) as [e | choices] eqn:Hreply.
  - eexists _, _, []. split; [done |]. split; [done |]. split; [constructor |].
    split; [| done]. simpl. split; [lia |]. intros [[? ?] _]. done.
  - unfold required. destruct (String.eqb_spec question "") as [-> | Hq]; simpl.
    + eexists _, _, []. split; [done |]. split; [done |]. split; [constructor |].
      split; [| done]. simpl. split; [lia |]. intros [_ ?]. done.
    + eexists _, _, [_]. split; [done |]. split; [done |].
      split; [by repeat constructor |]. split; [| simpl; lia].
      simpl. split; [| done]. intros _. split; [by eexists | done].
Qed.

(** ** Upload *)

Variable pdf : string → option string.
Variable uploadDir : string.

Lemma fileFilter_accepts (file : Upload) :
  fileFilter file = None →
  mimetype file = "application/pdf" ∨ mimetype file = "text/plain".
Proof.
  unfold fileFilter.
  destruct (String.eqb_spec (mimetype file) "application/pdf"); [by left |].
  destruct (String.eqb_spec (mimetype file) "text/plain"); [by right | done].
Qed.


(** The world once multer has stored the file. *)
Lemma post_upload_accepted (w : World) (user : ObjectId) (file : Upload) :
  fileFilter file = None →
  (size file ≤ fileSizeLimit)%Z →
  let path := upload_path uploadDir (clock w) file in
  let stored :=
    {| documents := documents w; summaries := summaries w; qaHistory := qaHistory w;
       files := <[path := data file]> (files w); clock := clock w;
       trace := trace w ++ [EWriteFile path] |} in
  post_upload pdf uploadDir (Some file) user w =
    match extracted_text pdf file with
    | None => (Ok {| status := 500; body := JMessage "File upload failed" |}, stored)
    | Some text =>
        let document := uploaded_document path (clock w) user file text in
        let id := fresh (dom (documents w)) in
        if Document.validate document
        then (Ok {| status := 200;
                    body := JUploaded "File uploaded successfully" id document |},
              {| documents := <[id := document]> (documents w);
                 summaries := summaries w; qaHistory := qaHistory w;
                 files := <[path := data file]> (files w); clock := clock w;
                 trace := trace w ++ [EWriteFile path; EDocumentSave id;
                                      EScheduleCleanup path] |})
        else (Ok {| status := 500; body := JMessage "File upload failed" |}, stored)
    end.
Proof.
  intros Hfilter Hsize path stored. subst path stored.
  unfold post_upload, upload_single, upload_handler, try_catch, bind, ret, throw, res,
    Date_now, fs_writeFile, fs_readFileSync, Document_save, cleanupFile, log, emit,
    extracted_text, upload_path, uploaded_document.
  rewrite Hfilter. destruct (Z.gtb_spec (size file) fileSizeLimit) as [Hbig | _]; [lia |].
  simpl.
  destruct (fileFilter_accepts file Hfilter) as [Hmime | Hmime]; rewrite !Hmime;
    simpl; rewrite lookup_insert_eq.
  - destruct (pdf (data file)) as [text|]; [| done].
    destruct (Document.validate _); [| done].
    simpl. by rewrite <- !app_assoc.
  - destruct (Document.validate _); [| done].
    simpl. by rewrite <- !app_assoc.
Qed.

Lemma post_upload_refused (w : World) (user : ObjectId) (file : Upload) :
  fileFilter file ≠ None ∨ (size file > fileSizeLimit)%Z →
  ∃ message,
    post_upload pdf uploadDir (Some file) user w
    = (Ok {| status := 500; body := ErrorPage message |}, w).
Proof.
  intros Hrefused.
  unfold post_upload, upload_single, try_catch, bind, throw, express_default_error, res, ret.
  destruct (fileFilter file) as [err|]; [by eexists |].
  destruct Hrefused as [? | Hbig]; [done |].
  destruct (Z.gtb_spec (size file) fileSizeLimit) as [_ | Hle]; [by eexists | lia].
Qed.

Lemma post_upload_no_file (w : World) (user : ObjectId) :
  post_upload pdf uploadDir None user w
  = (Ok {| status := 500; body := JMessage "File upload failed" |}, w).
Proof. reflexivity. Qed.



(** X15. [POST /upload] only ever answers 200 or 500: the 400 of the
    handler is never sent, whatever the part.  A request without a file
    part is answered 500 "File upload failed" and changes nothing. *)
Theorem upload_answers_200_or_500 (w : World) (user : ObjectId) (part : option Upload) :
  (∃ resp w1,
      post_upload pdf uploadDir part user w = (Ok resp, w1)
      ∧ (status resp = 200 ∨ status resp = 500)%Z)
  ∧ post_upload pdf uploadDir None user w
    = (Ok {| status := 500; body := JMessage "File upload failed" |}, w).
Proof.
  split; [| apply post_upload_no_file].
  destruct part as [file|]; [| eexists _, _; split; [apply post_upload_no_file | by right]].
  destruct (fileFilter file) as [err|] eqn:Hfilter.
  - destruct (post_upload_refused w user file) as [m Hrun]; [left; congruence |].
    eexists _, _. split; [exact Hrun | by right].
  - destruct (Z_le_gt_dec (size file) fileSizeLimit) as [Hle | Hgt].
    + rewrite (post_upload_accepted w user file Hfilter Hle). cbv zeta.
      destruct (extracted_text pdf file); [destruct (Document.validate _) |];
        eexists _, _; (split; [done |]); simpl; lia.
    + destruct (post_upload_refused w user file) as [m Hrun]; [by right |].
      eexists _, _. split; [exact Hrun | by right].
Qed.


(** ** Invariants of the collections *)

Lemma handle_foreign_world (w : World) (user : ObjectId) (r : Route) (d : Document.t) :
  documents w !! route_document r = Some d →
  Document.userId d ≠ user →
  (handle groq user r w).2 = w.
Proof.
  intros Hdoc Hown. apply N.eqb_neq in Hown.
  destruct r; simpl in Hdoc; unfold_handlers; by rewrite Hdoc, Hown.
Qed.

Lemma delete_document_owner_stores (w : World) (id user : ObjectId) (d : Document.t) :
  documents w !! id = Some d →
  Document.userId d = user →
  let w1 := (delete_document id user w).2 in
  documents w1 = delete id (documents w)
  ∧ summaries w1 = List.filter (λ s, negb (Summary.matches id user s)) (summaries w)
  ∧ qaHistory w1 = List.filter (λ q, negb (QAHistory.matches id user q)) (qaHistory w).
Proof.
  intros Hdoc Hown. apply N.eqb_eq in Hown.
  unfold_handlers. rewrite Hdoc, Hown. simpl.
  unfold fs_existsSync, fs_unlinkSync, Document_findByIdAndDelete, emit. simpl.
  destruct (files w !! Document.filepath d) eqn:Hfile.
  - rewrite bool_decide_eq_true_2 by eauto. simpl. by rewrite Hfile.
  - by rewrite bool_decide_eq_false_2 by (intros [? ?]; done).
Qed.

Lemma document_route_delta (w : World) (user : ObjectId) (r : Route) :
  Delta w (handle groq user r w).2.
Proof.
  destruct (documents w !! route_document r) as [d|] eqn:Hdoc;
    [| rewrite handle_missing by done; by apply DeltaNone].
  destruct (decide (Document.userId d = user)) as [Hown | Hown];
    [| rewrite (handle_foreign_world w user r d) by done; by apply DeltaNone].
  destruct r as [id | id | id | id | id question | id]; simpl in Hdoc; simpl handle.
  - pose proof Hown as Heq. apply N.eqb_eq in Heq.
    unfold_handlers. rewrite Hdoc, Heq. by apply DeltaNone.
  - destruct (delete_document_owner_stores w id user d Hdoc Hown) as (Hd & Hs & Hq).
    by apply (DeltaDelete _ _ id user d).
  - pose proof Hown as Heq. apply N.eqb_eq in Heq.
    unfold_handlers. rewrite Hdoc, Heq. simpl.
    destruct (List.find _ _); by apply DeltaNone.
  - destruct (List.find (Summary.matches id user) (summaries w)) as [s|] eqn:Hfind.
    + rewrite (post_summarize_existing groq w id user d s) by done. by apply DeltaNone.
    + destruct (splitTextIntoChunks_1000 (Document.text d)) as (chunks & Hchunks & _).
      destruct (replies_all_or_first_error
                  (replies groq (trace w) (map chunk_request chunks)))
        as [(sums & Hall) | (k & e & Hk & Hbefore)].
      * destruct (post_summarize_all_answered w id user d chunks sums)
          as [Hjoin Hok]; try done.
        rewrite Hok.
        apply (DeltaSummary _ _ id user d (summary_row id user (JS.join " " sums) w));
          try done.
        unfold Summary.validate, required. simpl.
        by apply negb_true_iff, String.eqb_neq.
      * rewrite (post_summarize_proceeds groq w id user d chunks) by done.
        rewrite (summarize_loop_fails groq chunks [] w k e Hk Hbefore).
        by apply DeltaNone.
  - rewrite (post_ask_owner w id user question d Hdoc Hown). cbv zeta.
    destruct (groq _ _) as [e | choices]; [by apply DeltaNone |].
    destruct (required question) eqn:Hq; [| by apply DeltaNone].
    apply (DeltaQuestion _ _ id user d
             {| QAHistory.documentId := id; QAHistory.userId := user;
                QAHistory.question := question;
                QAHistory.answer :=
                  JS.or_else (first_choice_content choices) "Answer not available";
                QAHistory.createdAt := clock w |}); try done.
    apply andb_true_iff. split; [exact Hq |].
    apply negb_true_iff, String.eqb_neq. by apply or_else_nonempty.
  - pose proof Hown as Heq. apply N.eqb_eq in Heq.
    unfold_handlers. rewrite Hdoc, Heq. by apply DeltaNone.
Qed.

Lemma step_delta (s : Step) (w : World) : Delta w (step groq pdf uploadDir s w).
Proof.
  destruct s as [user r | user | user part | now | path]; simpl.
  - apply document_route_delta.
  - by apply DeltaNone.
  - destruct part as [file|]; [| by apply DeltaNone].
    destruct (fileFilter file) as [err|] eqn:Hfilter.
    { destruct (post_upload_refused w user file) as [m ->]; [left; congruence |].
      by apply DeltaNone. }
    destruct (Z_le_gt_dec (size file) fileSizeLimit) as [Hle | Hgt].
    + rewrite (post_upload_accepted w user file Hfilter Hle). cbv zeta.
      destruct (extracted_text pdf file) as [text|]; [| by apply DeltaNone].
      destruct (Document.validate _) eqn:Hvalid; [| by apply DeltaNone].
      eapply DeltaUpload; try done. apply not_elem_of_dom, is_fresh.
    + destruct (post_upload_refused w user file) as [m ->]; [by right |].
      by apply DeltaNone.
  - by apply DeltaNone.
  - unfold cleanup_fires. destruct (files w !! path); by apply DeltaNone.
Qed.

Lemma filter_filter_length {A} (f g : A → bool) (l : list A) :
  (length (List.filter f (List.filter g l)) ≤ length (List.filter f l))%nat.
Proof.
  induction l as [|x l IH]; simpl; [done |].
  destruct (g x), (f x) eqn:Hf; simpl; rewrite ?Hf; simpl; lia.
Qed.

Lemma Forall_filter_both {A} (P : A → Prop) (f : A → bool) (l : list A) :
  Forall P l → Forall (λ x, P x ∧ f x = true) (List.filter f l).
Proof.
  intros Hall. apply Forall_forall. intros x Hx.
  apply list_elem_of_In, List.filter_In in Hx. destruct Hx as [Hx Hf].
  split; [| done]. rewrite Forall_forall in Hall. by apply Hall, list_elem_of_In.
Qed.

Lemma delta_one_summary_per_pair (w w1 : World) :
  Delta w w1 → one_summary_per_pair w → one_summary_per_pair w1.
Proof.
  intros Hdelta Hinv id' user'.
  destruct Hdelta as [_ Hs _ | id user d row _ _ Hnone Hid Huser _ _ Hs _
                     | id user d row _ _ _ _ _ _ Hs _ | id user d _ _ _ Hs _ | id d _ _ _ Hs _];
    rewrite Hs; try apply Hinv.
  - rewrite List.filter_app, length_app. simpl.
    destruct (Summary.matches id' user' row) eqn:Hm; simpl; [| specialize (Hinv id' user'); lia].
    unfold Summary.matches in Hm. apply andb_true_iff in Hm as [Hd Hu].
    apply N.eqb_eq in Hd, Hu. subst id' user'. rewrite Hid, Huser.
    rewrite (find_none_filter _ _ Hnone). simpl. lia.
  - etrans; [apply filter_filter_length | apply Hinv].
Qed.

Lemma delta_rows_have_owned_documents (w w1 : World) :
  Delta w w1 → rows_have_owned_documents w → rows_have_owned_documents w1.
Proof.
  intros Hdelta [Hsum Hqa].
  destruct Hdelta as [Hd Hs Hq | id user d row Hdoc Hown _ Hid Huser _ Hd Hs Hq
                     | id user d row Hdoc Hown Hid Huser _ Hd Hs Hq
                     | id user d Hdoc Hown Hd Hs Hq | id d Hfresh _ Hd Hs Hq];
    unfold rows_have_owned_documents; rewrite Hd, Hs, Hq.
  - done.
  - split; [| done]. apply Forall_app. split; [done |].
    constructor; [| constructor]. exists d. by rewrite Hid, Huser.
  - split; [done |]. apply Forall_app. split; [done |].
    constructor; [| constructor]. exists d. by rewrite Hid, Huser.
  - split.
    + eapply Forall_impl; [apply (Forall_filter_both _ _ _ Hsum) |].
      intros s [(d' & Hd' & Ho') Hm]. exists d'. split; [| done].
      rewrite lookup_delete_ne; [done |]. intros Heq.
      unfold Summary.matches in Hm. rewrite <- Heq in Hd', Hm.
      rewrite Hdoc in Hd'. injection Hd' as <-.
      rewrite N.eqb_refl in Hm. simpl in Hm.
      apply negb_true_iff, N.eqb_neq in Hm. congruence.
    + eapply Forall_impl; [apply (Forall_filter_both _ _ _ Hqa) |].
      intros q [(d' & Hd' & Ho') Hm]. exists d'. split; [| done].
      rewrite lookup_delete_ne; [done |]. intros Heq.
      unfold QAHistory.matches in Hm. rewrite <- Heq in Hd', Hm.
      rewrite Hdoc in Hd'. injection Hd' as <-.
      rewrite N.eqb_refl in Hm. simpl in Hm.
      apply negb_true_iff, N.eqb_neq in Hm. congruence.
  - split.
    + eapply Forall_impl; [exact Hsum |]. intros s (d' & Hd' & Ho'). exists d'.
      split; [| done]. rewrite lookup_insert_ne; [done |]. intros Heq. congruence.
    + eapply Forall_impl; [exact Hqa |]. intros q (d' & Hd' & Ho'). exists d'.
      split; [| done]. rewrite lookup_insert_ne; [done |]. intros Heq. congruence.
Qed.

Lemma delta_rows_are_valid (w w1 : World) :
  Delta w w1 → rows_are_valid w → rows_are_valid w1.
Proof.
  intros Hdelta (Hdocs & Hsum & Hqa).
  destruct Hdelta as [Hd Hs Hq | id user d row _ _ _ _ _ Hv Hd Hs Hq
                     | id user d row _ _ _ _ Hv Hd Hs Hq
                     | id user d _ _ Hd Hs Hq | id d _ Hv Hd Hs Hq];
    unfold rows_are_valid; rewrite Hd, Hs, Hq.
  - done.
  - split; [done |]. split; [| done]. apply Forall_app. split; [done |]. by repeat constructor.
  - split; [done |]. split; [done |]. apply Forall_app. split; [done |]. by repeat constructor.
  - split; [by apply map_Forall_delete |]. split.
    + eapply Forall_impl; [apply (Forall_filter_both _ _ _ Hsum) |]. by intros s [? _].
    + eapply Forall_impl; [apply (Forall_filter_both _ _ _ Hqa) |]. by intros q [? _].
  - split; [by apply map_Forall_insert_2 |]. done.
Qed.

Lemma run_keeps (P : World → Prop) :
  (∀ w w1, Delta w w1 → P w → P w1) →
  ∀ steps w, P w → P (run groq pdf uploadDir steps w).
Proof.
  intros Hkeep. induction steps as [|s steps IH]; intros w Hw; [done |].
  simpl. apply IH. eapply Hkeep; [apply step_delta | done].
Qed.

(** X17. Requests served one after the other never give a document and a
    user a second Summary row: if every pair has at most one row, so it is
    after any sequence of document requests, listings, uploads, clock
    changes and cleanup timers, whatever the model answers. *)
Theorem summaries_stay_one_per_pair (steps : list Step) (w : World) :
  one_summary_per_pair w →
  one_summary_per_pair (run groq pdf uploadDir steps w).
Proof. apply run_keeps. apply delta_one_summary_per_pair. Qed.

(** X18. No sequence of requests leaves a row without its document: if
    every Summary and QAHistory row belongs to a stored document and to
    the owner of that document, so it is after any sequence of steps.  In
    particular the owner's delete takes all rows of the document with
    it. *)
Theorem rows_keep_their_documents (steps : list Step) (w : World) :
  rows_have_owned_documents w →
  rows_have_owned_documents (run groq pdf uploadDir steps w).
Proof. apply run_keeps. apply delta_rows_have_owned_documents. Qed.

(** X19. Nothing that fails the validation of its schema is ever stored:
    no document with an empty name, path or text, no summary with empty
    content, no question or answer that is empty. *)
Theorem stored_rows_stay_valid (steps : list Step) (w : World) :
  rows_are_valid w →
  rows_are_valid (run groq pdf uploadDir steps w).
Proof. apply run_keeps. apply delta_rows_are_valid. Qed.

End MoreProperties.

(** ** Credentials *)

Lemma prefix_split (p h : string) :
  String.prefix p h = true → ∃ rest, h = p +:+ rest.
Proof.
  revert h. induction p as [|a p IH]; intros h.
  - intros _. exists h. by rewrite app_nil_l.
  - destruct h as [|b h]; simpl; [done |].
    destruct (ascii_dec a b) as [-> | _]; [| done].
    intros Hp. destruct (IH h Hp) as [rest ->]. exists rest. by rewrite app_cons.
Qed.

Lemma free_of_app (sep : ascii) (a b : string) :
  free_of sep (a +:+ b) → free_of sep a ∧ free_of sep b.
Proof.
  induction a as [|c a IH].
  - by rewrite app_nil_l.
  - rewrite app_cons. simpl. intros [Hc Hrest]. destruct (IH Hrest). by repeat split.
Qed.

Lemma substring_after_prefix (p t : string) :
  String.substring (String.length p) (String.length (p +:+ t) - String.length p) (p +:+ t) = t.
Proof.
  rewrite string_length_app.
  replace (String.length p + String.length t - String.length p)%nat
    with (String.length t) by lia.
  induction p as [|c p IH].
  - rewrite app_nil_l. simpl. induction t as [|c t IHt]; simpl; [done |].
    by rewrite IHt.
  - rewrite app_cons. simpl. exact IH.
Qed.

Lemma prefix_app (p t : string) : String.prefix p (p +:+ t) = true.
Proof.
  induction p as [|a p IH].
  - rewrite app_nil_l. by destruct t.
  - rewrite app_cons. simpl. by destruct (ascii_dec a a).
Qed.

Lemma replace_first_cons (pattern replacement : string) (c : ascii) (s : string) :
  replace_first pattern replacement (String c s) =
    if String.prefix pattern (String c s)
    then replacement +:+ String.substring (String.length pattern)
                           (String.length (String c s) - String.length pattern) (String c s)
    else String c (replace_first pattern replacement s).
Proof. reflexivity. Qed.

(** The scheme word in front of a token is taken off. *)
Lemma replace_first_bearer (token : string) :
  replace_first "Bearer " "" ("Bearer " +:+ token) = token.
Proof.
  rewrite (app_cons "B" "earer " token), replace_first_cons.
  rewrite <- (app_cons "B" "earer " token).
  change (String "B" "earer ") with "Bearer ".
  rewrite prefix_app, app_nil_l. apply substring_after_prefix.
Qed.

(** A header without a space holds no scheme word and is left as it is. *)
Lemma replace_first_no_space (h : string) :
  free_of " " h → replace_first "Bearer " "" h = h.
Proof.
  induction h as [|c h IH]; intros Hfree; [reflexivity |].
  assert (Hpre : String.prefix "Bearer " (String c h) = false).
  { destruct (String.prefix "Bearer " (String c h)) eqn:Hp; [| done].
    destruct (prefix_split _ _ Hp) as [rest Heq]. rewrite Heq in Hfree.
    apply free_of_app in Hfree as [Hb _]. simpl in Hb. tauto. }
  rewrite replace_first_cons, Hpre.
  destruct Hfree as [_ Hh]. by rewrite IH.
Qed.

Section CredentialProperties.

Variable groq : list Event → ChatRequest → GroqResult.
Variable User : Type.
Variable email_of : User → string.
Variable comparePassword : User → string → option bool.
Variable User_save :
  list (ObjectId * User) → string → string → string → option (ObjectId * User).
Variable jwt_sign : ObjectId → string.
Variable jwt_verify : string → JwtResult.

(** X20. The document routes are entered only for a header whose token
    verifies and names a stored user, and then as that user.  In every
    other case (no header, an empty token, a token that does not verify,
    a user that is gone) the answer is 401 "Authentication failed" and
    nothing is read or changed. *)
Theorem routes_need_a_stored_user (users : list (ObjectId * User))
    (authorization : option string) (r : Route) (w : World) :
  (∃ error,
      api User jwt_verify groq users authorization r w
      = (inl {| auth_status := 401; auth_body := AFailed "Authentication failed" error |}, w))
  ∨ (∃ header user row,
      authorization = Some header
      ∧ jwt_verify (replace_first "Bearer " "" header) = JwtPayload (Some user)
      ∧ User_findById User users (Some user) = Some row
      ∧ row.1 = user
      ∧ api User jwt_verify groq users authorization r w
        = (inr (handle groq user r w).1, (handle groq user r w).2)).
Proof.
  unfold api, authenticate, authenticate_try.
  destruct authorization as [header|]; simpl; [| left; by eexists].
  destruct (replace_first "Bearer " "" header) as [|c token] eqn:Htoken;
    [left; by eexists |].
  destruct (jwt_verify (String c token)) as [e | [user|]] eqn:Hverify; simpl;
    [left; by eexists | | left; by eexists].
  destruct (List.find (λ row : N * User, N.eqb row.1 user) users) as [row|] eqn:Hfind;
    [| left; by eexists].
  assert (Hid : row.1 = user).
  { apply List.find_some in Hfind as [_ Hid]. by apply N.eqb_eq in Hid. }
  destruct row as [rid ru]. simpl in Hid. subst rid.
  right. exists header, user, (user, ru). rewrite Htoken, Hverify.
  split; [done |]. split; [done |]. split; [exact Hfind |]. split; [done |].
  simpl. by destruct (handle groq user r w).
Qed.

(** X21. The word "Bearer" is not required: a header that is only the
    token (with no space in it) is treated exactly as the same token
    behind "Bearer ". *)
Theorem bearer_word_is_optional (users : list (ObjectId * User)) (token : string) :
  free_of " " token →
  authenticate User jwt_verify users (Some token)
  = authenticate User jwt_verify users (Some ("Bearer " +:+ token)).
Proof.
  intros Hfree. unfold authenticate, authenticate_try, option_map.
  by rewrite replace_first_bearer, replace_first_no_space.
Qed.

Lemma find_app_some {A} (f : A → bool) (l l' : list A) (x : A) :
  List.find f l = Some x → List.find f (l ++ l') = Some x.
Proof.
  induction l as [|y l IH]; simpl; [done |]. destruct (f y); [done | exact IH].
Qed.

Lemma find_app_is_some {A} (f : A → bool) (l : list A) (x : A) :
  f x = true → ∃ y, List.find f (l ++ [x]) = Some y ∧ f y = true.
Proof.
  intros Hx. induction l as [|z l IH]; simpl.
  - rewrite Hx. by exists x.
  - destruct (f z) eqn:Hz; [by exists z | exact IH].
Qed.

(** X22. A token handed out by [/signup] (201) or [/login] (200) names a
    user that is stored when the response is sent; provided that token
    verifies to the id it was signed for and is not empty, sending it as
    "Bearer <token>" passes [authenticate] as that user. *)
Theorem issued_token_is_accepted (users : list (ObjectId * User))
    (username email password : string) :
  (∀ token,
      (signup User email_of User_save jwt_sign users username email password).1
      = {| auth_status := 201; auth_body := AToken token |} →
      ∃ id, token = jwt_sign id
            ∧ (jwt_verify token = JwtPayload (Some id) → token ≠ "" →
               authenticate User jwt_verify
                 (signup User email_of User_save jwt_sign users username email password).2
                 (Some ("Bearer " +:+ token)) = inr id))
  ∧ (∀ token,
      login User email_of comparePassword jwt_sign users email password
      = {| auth_status := 200; auth_body := AToken token |} →
      ∃ id, token = jwt_sign id
            ∧ (jwt_verify token = JwtPayload (Some id) → token ≠ "" →
               authenticate User jwt_verify users (Some ("Bearer " +:+ token)) = inr id)).
Proof.
  assert (Hauth : ∀ us id, (∃ row, User_findById User us (Some id) = Some row) →
            jwt_verify (jwt_sign id) = JwtPayload (Some id) → jwt_sign id ≠ "" →
            authenticate User jwt_verify us (Some ("Bearer " +:+ jwt_sign id)) = inr id).
  { intros us id [row Hrow] Hverify Hne.
    assert (Hid : row.1 = id).
    { unfold User_findById in Hrow.
      apply List.find_some in Hrow as [_ Hid]. by apply N.eqb_eq in Hid. }
    unfold authenticate, authenticate_try, option_map. rewrite replace_first_bearer.
    destruct (jwt_sign id) as [|c t] eqn:Htok; [done |].
    rewrite Hverify, Hrow. f_equal. exact Hid. }
  split.
  - intros token. unfold signup.
    destruct (User_findOne User email_of users email); [done |].
    destruct (User_save users username email password) as [row|]; [| done].
    simpl. intros [= <-]. exists row.1. split; [done |].
    apply Hauth.
    destruct (find_app_is_some (λ r : ObjectId * User, N.eqb r.1 row.1) users row)
      as (y & Hy & _); [apply N.eqb_refl |]. exists y. exact Hy.
  - intros token. unfold login.
    destruct (User_findOne User email_of users email) as [row|] eqn:Hfind; [| done].
    destruct (comparePassword row.2 password) as [[|]|]; try done.
    intros [= <-]. exists row.1. split; [done |].
    apply Hauth.
    unfold User_findOne in Hfind. apply List.find_some in Hfind as [Hin _].
    destruct (List.find (λ r : ObjectId * User, N.eqb r.1 row.1) users) as [y|] eqn:Hy;
      [exists y; exact Hy |].
    exfalso. apply (List.find_none _ _ Hy) in Hin. by rewrite N.eqb_refl in Hin.
Qed.

(** X23. [/signup] never touches an existing account: the stored users
    are kept as they are and in order, with at most one new user after
    them.  For an e-mail that a stored user already has the answer is 400
    "User already exists" and no user is added. *)
Theorem signup_keeps_existing_accounts (users : list (ObjectId * User))
    (username email password : string) :
  let out := signup User email_of User_save jwt_sign users username email password in
  (out.2 = users ∨ ∃ row, out.2 = users ++ [row] ∧ auth_status out.1 = 201%Z)
  ∧ (∀ row, row ∈ users → email_of row.2 = email →
       out = ({| auth_status := 400; auth_body := AMessage "User already exists" |}, users)).
Proof.
  unfold signup. split.
  - destruct (User_findOne User email_of users email); [by left |].
    destruct (User_save users username email password) as [row|]; [| by left].
    right. by exists row.
  - intros row Hin Hemail. unfold User_findOne.
    destruct (List.find _ users) as [found|] eqn:Hfind; [done |].
    apply list_elem_of_In in Hin. apply (List.find_none _ _ Hfind) in Hin.
    apply String.eqb_neq in Hin. done.
Qed.

(** X24. [/login] gives a token only for a stored user with that e-mail
    whose password check succeeds; an unknown e-mail and a wrong password
    get the same answer, 400 "Invalid credentials". *)
Theorem login_needs_the_password (users : list (ObjectId * User)) (email password : string) :
  let out := login User email_of comparePassword jwt_sign users email password in
  (auth_status out = 200%Z →
     ∃ row, row ∈ users ∧ email_of row.2 = email
            ∧ comparePassword row.2 password = Some true
            ∧ auth_body out = AToken (jwt_sign row.1))
  ∧ (User_findOne User email_of users email = None
     ∨ (∃ row, User_findOne User email_of users email = Some row
               ∧ comparePassword row.2 password = Some false) →
     out = {| auth_status := 400; auth_body := AMessage "Invalid credentials" |}).
Proof.
  unfold login. split.
  - destruct (User_findOne User email_of users email) as [row|] eqn:Hfind; [| simpl; lia].
    destruct (comparePassword row.2 password) as [[|]|] eqn:Hcmp; simpl; try lia.
    intros _. exists row. unfold User_findOne in Hfind.
    apply List.find_some in Hfind as [Hin Hemail].
    apply list_elem_of_In in Hin. apply String.eqb_eq in Hemail. done.
  - intros [-> | (row & -> & ->)]; done.
Qed.

End CredentialProperties.

(** ** The further statements at sample inputs *)

Lemma blank_completion_gives_the_fallback_witness :
  (first_choice_content [None] = None ∨ first_choice_content [None] = Some "")
  ∧ blank_groq (trace sample_world) (chunk_request "hello big world") = GroqCompletion [None]
  ∧ (summarizeText blank_groq "hello big world" sample_world).1 = Ok "Summary not available"
  ∧ (answerQuestion blank_groq "hello big world" "Who is greeted?" sample_world).1
    = Ok "Answer not available".
Proof.
  assert (Hblank : first_choice_content [None] = None ∨ first_choice_content [None] = Some "")
    by (left; reflexivity).
  destruct (blank_completion_gives_the_fallback blank_groq "hello big world"
              "hello big world" "Who is greeted?" sample_world [None] Hblank)
    as (_ & _ & Hsummary & Hanswer).
  split; [exact Hblank |]. split; [reflexivity |].
  split; [exact (Hsummary eq_refl) | exact (Hanswer eq_refl)].
Defined.

Lemma missing_document_is_not_found_witness :
  documents sample_world !! route_document (PostAsk 5%N "Who is greeted?") = None
  ∧ handle numbering_groq 7%N (PostAsk 5%N "Who is greeted?") sample_world
    = (Ok {| status := 404; body := JMessage "Document not found" |}, sample_world).
Proof.
  assert (Hnone : documents sample_world !! route_document (PostAsk 5%N "Who is greeted?")
                  = None) by reflexivity.
  split; [exact Hnone |].
  exact (missing_document_is_not_found numbering_groq sample_world 7%N
           (PostAsk 5%N "Who is greeted?") Hnone).
Defined.

Lemma summarize_fails_only_with_the_model_witness :
  documents long_world !! 2%N = Some long_document
  ∧ splitTextIntoChunks (Document.text long_document) 1000 = Some long_chunks
  ∧ Exists (λ reply, summary_of reply = None)
      (replies flaky_groq (trace long_world) (map chunk_request long_chunks))
  ∧ ∃ resp w1,
      post_summarize flaky_groq 2%N 7%N long_world = (Ok resp, w1)
      ∧ status resp = 500%Z.
Proof.
  assert (Hdoc : documents long_world !! 2%N = Some long_document) by reflexivity.
  assert (Hnone : List.find (Summary.matches 2%N 7%N) (summaries long_world) = None)
    by reflexivity.
  assert (Hchunks : splitTextIntoChunks (Document.text long_document) 1000 = Some long_chunks)
    by (vm_compute; reflexivity).
  assert (Hex : Exists (λ reply, summary_of reply = None)
                  (replies flaky_groq (trace long_world) (map chunk_request long_chunks)))
    by (apply Exists_cons_tl, Exists_cons_hd; reflexivity).
  destruct (summarize_fails_only_with_the_model flaky_groq long_world 2%N 7%N
              long_document long_chunks Hdoc eq_refl Hnone Hchunks)
    as (resp & w1 & Hrun & _ & Hiff).
  split; [exact Hdoc |]. split; [exact Hchunks |]. split; [exact Hex |].
  exists resp, w1. split; [exact Hrun |]. exact (proj2 Hiff Hex).
Defined.

Lemma summary_is_served_after_summarize_witness :
  let w1 :=
    summary_saved (summary_row 1%N 7%N "part 0" sample_world)
      (after sample_world [EGroq (chunk_request "hello big world")]) in
  post_summarize numbering_groq 1%N 7%N sample_world
    = (Ok {| status := 200; body := JSummary "part 0" |}, w1)
  ∧ ∃ created,
      get_summary 1%N 7%N w1
      = (Ok {| status := 200; body := JSummaryCreated "part 0" created |}, w1).
Proof.
  intros w1.
  assert (Hrun : post_summarize numbering_groq 1%N 7%N sample_world
                 = (Ok {| status := 200; body := JSummary "part 0" |}, w1))
    by (vm_compute; reflexivity).
  destruct (summary_is_served_after_summarize numbering_groq sample_world w1 1%N 7%N
              _ Hrun eq_refl) as (text & created & Hbody & Hget).
  injection Hbody as <-.
  split; [exact Hrun |]. exists created. exact Hget.
Defined.

Lemma ask_succeeds_or_stores_nothing_witness :
  let request := answer_request (context_text (Document.text sample_document)) "" in
  documents busy_world !! 1%N = Some sample_document
  ∧ steady_groq "The world." (trace busy_world) request = GroqCompletion [Some "The world."]
  ∧ post_ask (steady_groq "The world.") 1%N "" 7%N busy_world
    = (Ok {| status := 500; body := JMessage "Q&A failed" |}, after busy_world [EGroq request]).
Proof.
  intros request.
  assert (Hdoc : documents busy_world !! 1%N = Some sample_document) by reflexivity.
  destruct (ask_succeeds_or_stores_nothing (steady_groq "The world.") busy_world 1%N 7%N ""
              sample_document Hdoc eq_refl)
    as (resp & w1 & tail & Hrun & _ & _ & Hiff & Hfail).
  assert (Hnot : status resp ≠ 200%Z).
  { intros H200. destruct (proj1 Hiff H200) as [_ Hq]. by apply Hq. }
  destruct (Hfail Hnot) as [-> ->].
  split; [exact Hdoc |]. split; [reflexivity |]. exact Hrun.
Defined.




Lemma summaries_stay_one_per_pair_witness :
  one_summary_per_pair (fresh_world 0%Z)
  ∧ length (summaries (run numbering_groq no_pdf "/srv/uploads" (take 5 sample_steps)
                         (fresh_world 0%Z))) = 1%nat
  ∧ one_summary_per_pair
      (run numbering_groq no_pdf "/srv/uploads" (take 5 sample_steps) (fresh_world 0%Z)).
Proof.
  assert (Hstart : one_summary_per_pair (fresh_world 0%Z)) by (intros id user; simpl; lia).
  split; [exact Hstart |]. split; [vm_compute; reflexivity |].
  exact (summaries_stay_one_per_pair numbering_groq no_pdf "/srv/uploads"
           (take 5 sample_steps) (fresh_world 0%Z) Hstart).
Defined.

Lemma rows_keep_their_documents_witness :
  rows_have_owned_documents (fresh_world 0%Z)
  ∧ length (qaHistory (run numbering_groq no_pdf "/srv/uploads" (take 5 sample_steps)
                         (fresh_world 0%Z))) = 1%nat
  ∧ qaHistory (run numbering_groq no_pdf "/srv/uploads" sample_steps (fresh_world 0%Z)) = []
  ∧ rows_have_owned_documents
      (run numbering_groq no_pdf "/srv/uploads" sample_steps (fresh_world 0%Z)).
Proof.
  assert (Hstart : rows_have_owned_documents (fresh_world 0%Z)) by (split; constructor).
  split; [exact Hstart |]. split; [vm_compute; reflexivity |].
  split; [vm_compute; reflexivity |].
  exact (rows_keep_their_documents numbering_groq no_pdf "/srv/uploads" sample_steps
           (fresh_world 0%Z) Hstart).
Defined.

Lemma stored_rows_stay_valid_witness :
  rows_are_valid (fresh_world 0%Z)
  ∧ rows_are_valid
      (run numbering_groq no_pdf "/srv/uploads" (take 5 sample_steps) (fresh_world 0%Z)).
Proof.
  assert (Hstart : rows_are_valid (fresh_world 0%Z)).
  { split; [apply map_Forall_empty |]. split; constructor. }
  split; [exact Hstart |].
  exact (stored_rows_stay_valid numbering_groq no_pdf "/srv/uploads" (take 5 sample_steps)
           (fresh_world 0%Z) Hstart).
Defined.

Lemma bearer_word_is_optional_witness :
  free_of " " "t7"
  ∧ authenticate (string * string) sample_verify sample_users (Some "t7") = inr 7%N
  ∧ authenticate (string * string) sample_verify sample_users (Some "Bearer t7") = inr 7%N.
Proof.
  assert (Hfree : free_of " " "t7") by (simpl; repeat split; discriminate).
  assert (Hplain : authenticate (string * string) sample_verify sample_users (Some "t7")
                   = inr 7%N) by reflexivity.
  split; [exact Hfree |]. split; [exact Hplain |].
  rewrite <- Hplain. symmetry.
  exact (bearer_word_is_optional (string * string) sample_verify sample_users "t7" Hfree).
Defined.

Lemma issued_token_is_accepted_witness :
  login (string * string) fst sample_compare sample_sign sample_users
    "ada@example.org" "correct horse"
  = {| auth_status := 200; auth_body := AToken "t7" |}
  ∧ sample_verify "t7" = JwtPayload (Some 7%N)
  ∧ authenticate (string * string) sample_verify sample_users (Some "Bearer t7") = inr 7%N
  ∧ (signup (string * string) fst sample_save sample_sign sample_users
       "bob" "bob@example.org" "battery staple").1
    = {| auth_status := 201; auth_body := AToken "t101" |}
  ∧ authenticate (string * string) sample_verify
      (signup (string * string) fst sample_save sample_sign sample_users
         "bob" "bob@example.org" "battery staple").2 (Some "Bearer t101") = inr 101%N.
Proof.
  assert (Hlogin : login (string * string) fst sample_compare sample_sign sample_users
                     "ada@example.org" "correct horse"
                   = {| auth_status := 200; auth_body := AToken "t7" |})
    by (vm_compute; reflexivity).
  assert (Hsignup : (signup (string * string) fst sample_save sample_sign sample_users
                       "bob" "bob@example.org" "battery staple").1
                    = {| auth_status := 201; auth_body := AToken "t101" |})
    by (vm_compute; reflexivity).
  assert (Hverify : sample_verify "t7" = JwtPayload (Some 7%N)) by reflexivity.
  destruct (issued_token_is_accepted (string * string) fst sample_compare sample_save
              sample_sign sample_verify sample_users "ada" "ada@example.org" "correct horse")
    as [_ Hin].
  destruct (Hin "t7" Hlogin) as (id & Hid & Hauth).
  assert (H7 : id = 7%N).
  { unfold sample_sign in Hid. rewrite app_cons, app_nil_l in Hid.
    injection Hid as Hid. symmetry. by apply (inj pretty 7%N id). }
  subst id.
  destruct (issued_token_is_accepted (string * string) fst sample_compare sample_save
              sample_sign sample_verify sample_users "bob" "bob@example.org" "battery staple")
    as [Hup _].
  destruct (Hup "t101" Hsignup) as (id & Hid' & Hauth').
  assert (H101 : id = 101%N).
  { unfold sample_sign in Hid'. rewrite app_cons, app_nil_l in Hid'.
    injection Hid' as Hid'. symmetry. by apply (inj pretty 101%N id). }
  subst id.
  split; [exact Hlogin |]. split; [exact Hverify |].
  split; [exact (Hauth Hverify ltac:(discriminate)) |].
  split; [exact Hsignup |].
  exact (Hauth' eq_refl ltac:(discriminate)).
Defined.

Lemma signup_keeps_existing_accounts_witness :
  (7%N, ("ada@example.org", "correct horse")) ∈ sample_users
  ∧ signup (string * string) fst sample_save sample_sign sample_users
      "eve" "ada@example.org" "guess"
    = ({| auth_status := 400; auth_body := AMessage "User already exists" |}, sample_users).
Proof.
  assert (Hin : (7%N, ("ada@example.org", "correct horse")) ∈ sample_users)
    by (apply list_elem_of_here).
  split; [exact Hin |].
  destruct (signup_keeps_existing_accounts (string * string) fst sample_save sample_sign
              sample_users "eve" "ada@example.org" "guess") as [_ Htaken].
  exact (Htaken _ Hin eq_refl).
Defined.

Lemma login_needs_the_password_witness :
  (∃ row, User_findOne (string * string) fst sample_users "ada@example.org" = Some row
          ∧ sample_compare row.2 "guess" = Some false)
  ∧ login (string * string) fst sample_compare sample_sign sample_users
      "ada@example.org" "guess"
    = {| auth_status := 400; auth_body := AMessage "Invalid credentials" |}
  ∧ login (string * string) fst sample_compare sample_sign sample_users
      "nobody@example.org" "guess"
    = {| auth_status := 400; auth_body := AMessage "Invalid credentials" |}.
Proof.
  assert (Hwrong : ∃ row, User_findOne (string * string) fst sample_users "ada@example.org"
                          = Some row ∧ sample_compare row.2 "guess" = Some false)
    by (eexists; split; reflexivity).
  destruct (login_needs_the_password (string * string) fst sample_compare sample_sign
              sample_users "ada@example.org" "guess") as [_ Hbad].
  destruct (login_needs_the_password (string * string) fst sample_compare sample_sign
              sample_users "nobody@example.org" "guess") as [_ Hunknown].
  split; [exact Hwrong |].
  split; [exact (Hbad (or_intror Hwrong)) | exact (Hunknown (or_introl eq_refl))].
Defined.
